(** * The booking sinks of the doctor appointment assistant

    A shallow embedding of the four tools of [src/app.py]
    ([save_appointment], [get_doctors], [send_doctor_request] and
    [confirm_patient]) together with the two stores they talk to: the remote
    document store, reached through [requests.post], and the local file
    [appointments.json].

    The tools are Python functions with effects.  They are embedded in a
    small state-and-exception monad over a [World] that holds the remote
    documents, the local file and a log of every request and file operation.
    What the outside does on one call (how an endpoint replies, whether the
    file system lets a file be opened or written) is an explicit argument of
    the tool, so that statements can quantify over it. *)

From Stdlib Require Import String Ascii ZArith List Bool Lia DecimalString.
From Stdlib Require Import Floats.SpecFloat.
Import ListNotations.

#[local] Open Scope string_scope.
#[local] Open Scope list_scope.

(** ** Python values *)

(** The values [json.load] and [Response.json] produce: [None], [bool],
    [int], [float], [str], [list] and [dict].  A [dict] is kept as an
    association list in insertion order, read from the front. *)
#[warnings="-register-all"]
Inductive json : Type :=
| JNull
| JBool (b : bool)
| JInt (z : Z)
| JFloat (f : spec_float)
| JStr (s : string)
| JList (items : list json)
| JObj (fields : list (string * json)).

(** Text that is either rejected by the JSON decoder (with the decoder's
    message) or decoded to a value. *)
Inductive parsed : Type :=
| Unparseable (why : string)
| Parses (v : json).

(** [bool(v)]: what an [if] or an [and] makes of a value. *)
Definition truthy (v : json) : bool :=
  match v with
  | JNull => false
  | JBool b => b
  | JInt z => negb (z =? 0)%Z
  | JFloat (S754_zero _) => false
  | JFloat _ => true
  | JStr s => negb (s =? "")
  | JList items => match items with [] => false | _ :: _ => true end
  | JObj fields => match fields with [] => false | _ :: _ => true end
  end.

Fixpoint dict_lookup (fields : list (string * json)) (k : string) : option json :=
  match fields with
  | [] => None
  | (k', v) :: rest => if k' =? k then Some v else dict_lookup rest k
  end.

(** [v == s] for a string [s]: only an equal [str] compares equal. *)
Definition eq_str (v : json) (s : string) : bool :=
  match v with
  | JStr s' => s' =? s
  | _ => false
  end.

(** The name Python prints for the type of a value. *)
Definition type_name (v : json) : string :=
  match v with
  | JNull => "NoneType"
  | JBool _ => "bool"
  | JInt _ => "int"
  | JFloat _ => "float"
  | JStr _ => "str"
  | JList _ => "list"
  | JObj _ => "dict"
  end.

(** ** Exceptions *)

(** The exception classes the tools can meet.  All but [KeyboardInterrupt]
    derive from [Exception]; [except Exception] catches exactly those. *)
Inductive exn_class : Type :=
| KeyError
| TypeError
| AttributeError
| OSError
| JSONDecodeError
| RequestException
| KeyboardInterrupt.

Definition is_Exception (c : exn_class) : bool :=
  match c with
  | KeyboardInterrupt => false
  | _ => true
  end.

(** An exception object: its class and the text [str(e)] gives. *)
Record exn : Type := { exn_cls : exn_class; exn_str : string }.

Inductive result (A : Type) : Type :=
| Returned (a : A)
| Raised (e : exn).
Arguments Returned {A} a.
Arguments Raised {A} e.

Definition rbind {A B} (c : result A) (k : A -> result B) : result B :=
  match c with
  | Returned a => k a
  | Raised e => Raised e
  end.

Notation "x <-- c ;; k" := (rbind c (fun x => k))
  (at level 61, c at next level, right associativity).

Definition throw {A} (c : exn_class) (msg : string) : result A :=
  Raised {| exn_cls := c; exn_str := msg |}.

(** [a[k]] for a string key [k]. *)
Definition subscript (a : json) (k : string) : result json :=
  match a with
  | JObj fields =>
      match dict_lookup fields k with
      | Some v => Returned v
      | None => throw KeyError ("'" ++ k ++ "'")%string
      end
  | JList _ => throw TypeError "list indices must be integers or slices, not str"
  | JStr _ => throw TypeError "string indices must be integers, not 'str'"
  | _ => throw TypeError ("'" ++ type_name a ++ "' object is not subscriptable")%string
  end.

(** [j.get(k)]: the method exists on a [dict] only and gives [None] for a
    missing key. *)
Definition get_method (j : json) (k : string) : result json :=
  match j with
  | JObj fields =>
      Returned (match dict_lookup fields k with Some v => v | None => JNull end)
  | _ => throw AttributeError
           ("'" ++ type_name j ++ "' object has no attribute 'get'")%string
  end.

(** The items a [for] loop draws from a value: the elements of a list, the
    keys of a dict, the characters of a string (its bytes here; either way
    every item is a [str]). *)
Definition iterate (data : json) : result (list json) :=
  match data with
  | JList items => Returned items
  | JObj fields => Returned (map (fun kv => JStr (fst kv)) fields)
  | JStr s => Returned (map (fun c => JStr (String c "")) (list_ascii_of_string s))
  | _ => throw TypeError ("'" ++ type_name data ++ "' object is not iterable")%string
  end.

(** [data.append(x)]: only a [list] has the method. *)
Definition append_method (data x : json) : result json :=
  match data with
  | JList items => Returned (JList (items ++ [x]))
  | _ => throw AttributeError
           ("'" ++ type_name data ++ "' object has no attribute 'append'")%string
  end.

(** [str(n)] for an [int]. *)
Definition str_of_int (n : Z) : string := NilZero.string_of_int (Z.to_int n).

(** ** The world outside the tools *)

(** A slot is a (doctor, date, time) triple. *)
Definition slot : Type := string * string * string.

Definition slot_eqb (a b : slot) : bool :=
  match a, b with
  | (d1, dt1, t1), (d2, dt2, t2) => (d1 =? d2) && (dt1 =? dt2) && (t1 =? t2)
  end.

(** The document [save_appointment] asks the remote store to create. *)
Record AppointmentDoc : Type := {
  doc_type : string;
  patientName : string;
  email : string;
  doctorName : string;
  date : string;
  time : string;
  status : string
}.

Definition doc_slot (d : AppointmentDoc) : slot := (doctorName d, date d, time d).

Definition doc_json (d : AppointmentDoc) : json :=
  JObj [("_type", JStr (doc_type d));
        ("patientName", JStr (patientName d));
        ("email", JStr (email d));
        ("doctorName", JStr (doctorName d));
        ("date", JStr (date d));
        ("time", JStr (time d));
        ("status", JStr (status d))].

(** The three requests the tools send, each with what its JSON body carries:
    the conflict query with its three parameters, the mutation batch with the
    one document to create, the webhook payload. *)
Inductive request : Type :=
| QueryRequest (q_doctorName q_date q_time : string)
| MutateRequest (create : AppointmentDoc)
| WebhookRequest (patient_name doctor_name w_date w_time : string).

Record response : Type := { status_code : Z; body : parsed }.

(** What an endpoint does with one request: it processes the request and
    answers 200; or the request is not processed and something else comes
    back (an error status, a gateway page); or [requests.post] raises. *)
Inductive reply : Type :=
| Served
| Answers (r : response)
| Unreachable (msg : string).

(** Operations on the local file, in the order they happen. *)
Inductive fs_event : Type :=
| EvExists
| EvOpenRead
| EvOpenWrite
| EvDump.

Record World : Type := {
  sanity_docs : list AppointmentDoc;   (* the remote store's appointment documents *)
  http_log : list request;             (* every request sent, oldest first *)
  appointments_file : option parsed;   (* appointments.json: absent, or its content *)
  fs_log : list fs_event               (* every file operation, oldest first *)
}.

Definition set_docs (docs : list AppointmentDoc) (w : World) : World :=
  {| sanity_docs := docs; http_log := http_log w;
     appointments_file := appointments_file w; fs_log := fs_log w |}.

Definition log_request (req : request) (w : World) : World :=
  {| sanity_docs := sanity_docs w; http_log := http_log w ++ [req];
     appointments_file := appointments_file w; fs_log := fs_log w |}.

Definition set_file (f : option parsed) (w : World) : World :=
  {| sanity_docs := sanity_docs w; http_log := http_log w;
     appointments_file := f; fs_log := fs_log w |}.

Definition log_fs (ev : fs_event) (w : World) : World :=
  {| sanity_docs := sanity_docs w; http_log := http_log w;
     appointments_file := appointments_file w; fs_log := fs_log w ++ [ev] |}.

(** ** The monad of the tools: state and exceptions *)

Definition M (A : Type) : Type := World -> result A * World.

Definition ret {A} (a : A) : M A := fun w => (Returned a, w).

Definition bind {A B} (c : M A) (k : A -> M B) : M B :=
  fun w =>
    match c w with
    | (Returned a, w') => k a w'
    | (Raised e, w') => (Raised e, w')
    end.

Notation "x <- c ;; k" := (bind c (fun x => k))
  (at level 61, c at next level, right associativity).

Definition lift {A} (r : result A) : M A := fun w => (r, w).

(** [try: c  except Exception as e: h e]. *)
Definition try_except_Exception {A} (c : M A) (h : exn -> M A) : M A :=
  fun w =>
    match c w with
    | (Returned a, w') => (Returned a, w')
    | (Raised e, w') =>
        if is_Exception (exn_cls e) then h e w' else (Raised e, w')
    end.

(** ** What the endpoints and the file system do *)

(** An endpoint that processes a request.  The query endpoint evaluates the
    filter [_type == "appointment" && doctorName == $doctorName && date ==
    $date && time == $time] and puts its first match, or [null], in the
    [result] field.  The mutate endpoint adds the created document.  The
    webhook keeps nothing. *)
Definition query_matches (s : slot) (doc : AppointmentDoc) : bool :=
  (doc_type doc =? "appointment") && slot_eqb (doc_slot doc) s.

Definition serve (req : request) (w : World) : response * World :=
  match req with
  | QueryRequest d dt t =>
      let hit := find (query_matches (d, dt, t)) (sanity_docs w) in
      ({| status_code := 200;
          body := Parses (JObj [("result",
                                 match hit with
                                 | Some doc => doc_json doc
                                 | None => JNull
                                 end)]) |}, w)
  | MutateRequest doc =>
      ({| status_code := 200;
          body := Parses (JObj [("results",
                                 JList [JObj [("operation", JStr "create")]])]) |},
       set_docs (sanity_docs w ++ [doc]) w)
  | WebhookRequest _ _ _ _ =>
      ({| status_code := 200; body := Parses (JObj []) |}, w)
  end.

(** [requests.post(url, headers=..., json=...)]. *)
Definition requests_post (req : request) (how : reply) : M response :=
  fun w =>
    let w1 := log_request req w in
    match how with
    | Served => let (r, w2) := serve req w1 in (Returned r, w2)
    | Answers r => (Returned r, w1)
    | Unreachable msg => (throw RequestException msg, w1)
    end.

(** [r.json()]. *)
Definition response_json (r : response) : result json :=
  match body r with
  | Parses v => Returned v
  | Unparseable why => throw JSONDecodeError why
  end.

(** How the file system treats the write of one call: the file is written;
    or [open(file, "w")] raises and the file stays as it was; or the open
    truncates the file and [json.dump] raises part-way, leaving text the
    decoder rejects. *)
Inductive write_behaviour : Type :=
| Written
| OpenRefused (msg : string)
| DumpFails (msg why : string).

(** The file system during one call: whether [open(file)] for reading
    raises (with the message of the [OSError]), and how the write goes. *)
Record fs_env : Type := {
  read_refused : option string;
  on_write : write_behaviour
}.

(** [os.path.exists(file)]. *)
Definition os_path_exists : M bool :=
  fun w =>
    (Returned (match appointments_file w with Some _ => true | None => false end),
     log_fs EvExists w).

(** [json.load(open(file))].  The decoded text is taken as given: a file
    that [json.dump] wrote decodes to the value that was dumped. *)
Definition json_load_open (env : fs_env) : M json :=
  fun w =>
    let w1 := log_fs EvOpenRead w in
    match read_refused env with
    | Some msg => (throw OSError msg, w1)
    | None =>
        match appointments_file w1 with
        | Some (Parses v) => (Returned v, w1)
        | Some (Unparseable why) => (throw JSONDecodeError why, w1)
        | None =>
            (throw OSError
               "[Errno 2] No such file or directory: 'appointments.json'", w1)
        end
    end.

(** [with open(file, "w") as f: json.dump(data, f, indent=2)]. *)
Definition open_w_dump (env : fs_env) (data : json) : M unit :=
  fun w =>
    let w1 := log_fs EvOpenWrite w in
    match on_write env with
    | Written => (Returned tt, log_fs EvDump (set_file (Some (Parses data)) w1))
    | OpenRefused msg => (throw OSError msg, w1)
    | DumpFails msg why =>
        (throw OSError msg, log_fs EvDump (set_file (Some (Unparseable why)) w1))
    end.

(** ** The tools *)

Definition SlotAlreadyBooked_remote : string :=
  "⛔ Sorry, this time slot is already booked!".
Definition SinkSaved : string := "✅ Appointment saved to Sanity.".
Definition SinkWriteFailed : string := "❌ Sanity save failed.".
Definition SlotAlreadyBooked_local : string :=
  "❌ Doctor already booked at that time.".
Definition WebhookNotified : string := "✅ Doctor notified via webhook!".

(** How the remote store replies to the two requests of one
    [save_appointment] call. *)
Record sanity_env : Type := { on_query : reply; on_mutate : reply }.

(** [check.status_code == 200 and check.json().get("result")]: the body is
    decoded only when the status is 200. *)
Definition conflict_found (check : response) : result bool :=
  if (status_code check =? 200)%Z then
    j <-- response_json check ;;
    r <-- get_method j "result" ;;
    Returned (truthy r)
  else Returned false.

Definition pending_doc (patientName email doctorName date time : string)
  : AppointmentDoc :=
  {| doc_type := "appointment";
     patientName := patientName;
     email := email;
     doctorName := doctorName;
     date := date;
     time := time;
     status := "pending" |}.

Definition save_appointment (env : sanity_env)
    (patientName email doctorName date time : string) : M string :=
  check <- requests_post (QueryRequest doctorName date time) (on_query env) ;;
  booked <- lift (conflict_found check) ;;
  if booked then ret SlotAlreadyBooked_remote
  else
    response <- requests_post
                  (MutateRequest (pending_doc patientName email doctorName date time))
                  (on_mutate env) ;;
    ret (if (status_code response =? 200)%Z then SinkSaved else SinkWriteFailed).

(** The record of a doctor: the specialty, and per day-group label the
    period labels with their time range. *)
Record DoctorRecord : Type := {
  specialty : string;
  availability : list (string * list (string * string))
}.

Definition doctors_table : list (string * DoctorRecord) :=
  [("Dr. Khan",
    {| specialty := "Dermatologist";
       availability :=
         [("Monday to Friday",
           [("Morning", "10:00 AM - 2:00 PM");
            ("Evening", "7:00 PM - 10:00 PM")])] |});
   ("Dr. Ahmed",
    {| specialty := "Neurologist";
       availability :=
         [("Monday to Friday", [("Evening", "7:00 PM - 11:00 PM")]);
          ("Saturday",
           [("Morning", "10:00 AM - 2:00 PM");
            ("Evening", "7:00 PM - 11:00 PM")])] |})].

(** The function builds its dictionary anew on every call. *)
Definition get_doctors : M (list (string * DoctorRecord)) :=
  ret doctors_table.

Definition send_doctor_request (how : reply)
    (patient_name doctor_name date time : string) : M string :=
  try_except_Exception
    (response <- requests_post
                   (WebhookRequest patient_name doctor_name date time) how ;;
     ret (if (status_code response =? 200)%Z then WebhookNotified
          else ("❌ Webhook failed (" ++ str_of_int (status_code response) ++ ")")%string))
    (fun e => ret ("❌ Webhook error: " ++ exn_str e)%string).

(** The dictionary [confirm_patient] appends. *)
Definition record_json (patient doctor date time : string) : json :=
  JObj [("patient", JStr patient); ("doctor", JStr doctor);
        ("date", JStr date); ("time", JStr time)].

(** [a["doctor"] == doctor_name and a["date"] == date and a["time"] == time]:
    a later key is read only when the earlier comparisons held. *)
Definition same_slot (a : json) (doctor_name date time : string) : result bool :=
  d <-- subscript a "doctor" ;;
  if eq_str d doctor_name then
    dt <-- subscript a "date" ;;
    if eq_str dt date then
      t <-- subscript a "time" ;;
      Returned (eq_str t time)
    else Returned false
  else Returned false.

(** The [for] loop: [true] when the loop returns from inside, [false] when
    it runs to its end. *)
Fixpoint scan (items : list json) (doctor_name date time : string) : result bool :=
  match items with
  | [] => Returned false
  | a :: rest =>
      hit <-- same_slot a doctor_name date time ;;
      if hit then Returned true else scan rest doctor_name date time
  end.

Definition confirm_patient_body (env : fs_env)
    (patient_name doctor_name date time : string) : M string :=
  present <- os_path_exists ;;
  data <- (if present then json_load_open env else ret (JList [])) ;;
  items <- lift (iterate data) ;;
  booked <- lift (scan items doctor_name date time) ;;
  if booked then ret SlotAlreadyBooked_local
  else
    data' <- lift (append_method data (record_json patient_name doctor_name date time)) ;;
    _ <- open_w_dump env data' ;;
    ret ("✅ Appointment confirmed for " ++ patient_name ++ " with " ++ doctor_name
           ++ " on " ++ date ++ " at " ++ time ++ ".")%string.

Definition confirm_patient (env : fs_env)
    (patient_name doctor_name date time : string) : M string :=
  try_except_Exception
    (confirm_patient_body env patient_name doctor_name date time)
    (fun e => ret ("❌ Failed to confirm appointment: " ++ exn_str e)%string).

(** ** Sequences of calls and what the stores hold *)

(** One call of a tool by the agent, with what the outside does during it. *)
Inductive call : Type :=
| Save (env : sanity_env) (patientName email doctorName date time : string)
| GetDoctors
| Notify (how : reply) (patient_name doctor_name date time : string)
| Confirm (env : fs_env) (patient_name doctor_name date time : string).

Definition run_call (c : call) (w : World) : World :=
  match c with
  | Save env p e d dt t => snd (save_appointment env p e d dt t w)
  | GetDoctors => snd (get_doctors w)
  | Notify how p d dt t => snd (send_doctor_request how p d dt t w)
  | Confirm env p d dt t => snd (confirm_patient env p d dt t w)
  end.

Definition run_calls (cs : list call) (w : World) : World :=
  fold_left (fun w c => run_call c w) cs w.

(** Both stores empty, nothing sent, nothing done yet. *)
Definition empty_world : World :=
  {| sanity_docs := []; http_log := []; appointments_file := None; fs_log := [] |}.

(** The local store is empty when the file is absent or holds [[]]. *)
Definition local_store_empty (w : World) : Prop :=
  appointments_file w = None \/ appointments_file w = Some (Parses (JList [])).

(** A record of the local log: the patient and the slot. *)
Record Booking : Type := {
  b_patient : string;
  b_doctor : string;
  b_date : string;
  b_time : string
}.

Definition booking_slot (b : Booking) : slot := (b_doctor b, b_date b, b_time b).

Definition booking_json (b : Booking) : json :=
  record_json (b_patient b) (b_doctor b) (b_date b) (b_time b).

Definition store_json (bs : list Booking) : json := JList (map booking_json bs).

(** The records the local file holds: the items of its list, none when the
    file is absent or does not hold a list. *)
Definition stored_items (w : World) : list json :=
  match appointments_file w with
  | Some (Parses (JList items)) => items
  | _ => []
  end.

(** A file system that lets the file be read and written. *)
Definition healthy : fs_env := {| read_refused := None; on_write := Written |}.

Definition confirm_booking (env : fs_env) (b : Booking) : M string :=
  confirm_patient env (b_patient b) (b_doctor b) (b_date b) (b_time b).

Definition confirmation (b : Booking) : string :=
  ("✅ Appointment confirmed for " ++ b_patient b ++ " with " ++ b_doctor b
     ++ " on " ++ b_date b ++ " at " ++ b_time b ++ ".")%string.

(** [confirm_patient] called on the bookings one after the other: the
    results in call order, and the world afterwards. *)
Fixpoint confirm_all (env : fs_env) (bs : list Booking) (w : World)
  : list (result string) * World :=
  match bs with
  | [] => ([], w)
  | b :: rest =>
      let (r, w1) := confirm_booking env b w in
      let (rs, w2) := confirm_all env rest w1 in
      (r :: rs, w2)
  end.

(** The response a request gets, when one comes back. *)
Definition answer (how : reply) (req : request) (w : World) : option response :=
  match how with
  | Served => Some (fst (serve req w))
  | Answers r => Some r
  | Unreachable _ => None
  end.

Definition reply_status (how : reply) : option Z :=
  match how with
  | Served => Some 200%Z
  | Answers r => Some (status_code r)
  | Unreachable _ => None
  end.

(** The remote store holds an appointment for the slot. *)
Definition remotely_booked (s : slot) (w : World) : Prop :=
  exists doc,
    In doc (sanity_docs w) /\ doc_type doc = "appointment" /\ doc_slot doc = s.

(** At most one record per slot, in each store. *)
Definition remote_unique (w : World) : Prop :=
  NoDup (map doc_slot (sanity_docs w)).

Definition local_unique (w : World) : Prop :=
  match appointments_file w with
  | Some (Parses v) =>
      exists bs, v = store_json bs /\ NoDup (map booking_slot bs)
  | _ => True
  end.

(** The conflict query of a [Save] call was evaluated by the store, or no
    response came back at all. *)
Definition query_honoured (c : call) : bool :=
  match c with
  | Save env _ _ _ _ _ =>
      match on_query env with
      | Answers _ => false
      | _ => true
      end
  | _ => true
  end.

(** The store documents are all appointments ([_type == "appointment"]). *)
Definition all_appointments (w : World) : Prop :=
  Forall (fun doc => doc_type doc = "appointment") (sanity_docs w).

(** A result that [except Exception] lets through only as a value. *)
Definition catchable {A} (r : result A) : Prop :=
  match r with
  | Returned _ => True
  | Raised e => is_Exception (exn_cls e) = true
  end.

Definition catchable_M {A} (c : M A) : Prop := forall w, catchable (fst (c w)).

(** Two bookings of one slot, the conflict query of the second answered
    with status 500. *)
Definition double_booking : list call :=
  [Save {| on_query := Served; on_mutate := Served |}
        "Ali" "ali@example.com" "Dr. Khan" "2025-01-01" "11:00 AM";
   Save {| on_query := Answers {| status_code := 500;
                                  body := Unparseable "Expecting value" |};
           on_mutate := Served |}
        "Sara" "sara@example.com" "Dr. Khan" "2025-01-01" "11:00 AM"].

(** A stored record that has the three keys the scan reads. *)
Definition has_slot_keys (a : json) : bool :=
  match a with
  | JObj fields =>
      match dict_lookup fields "doctor", dict_lookup fields "date",
            dict_lookup fields "time" with
      | Some _, Some _, Some _ => true
      | _, _, _ => false
      end
  | _ => false
  end.

(** The stored record is a booking of the slot: under the three keys it has
    the three strings of the slot. *)
Definition holds_slot (s : slot) (a : json) : bool :=
  match a, s with
  | JObj fields, (d, dt, t) =>
      match dict_lookup fields "doctor", dict_lookup fields "date",
            dict_lookup fields "time" with
      | Some v1, Some v2, Some v3 => eq_str v1 d && eq_str v2 dt && eq_str v3 t
      | _, _, _ => false
      end
  | _, _ => false
  end.

(** The slot is among the slots of the bookings. *)
Definition booked_in (s : slot) (bs : list Booking) : bool :=
  existsb (fun b => slot_eqb (booking_slot b) s) bs.

Definition mk_booking (p d dt t : string) : Booking :=
  {| b_patient := p; b_doctor := d; b_date := dt; b_time := t |}.

(** The local file holds exactly the bookings [bs]; with no booking yet it
    may also be absent. *)
Definition file_is (bs : list Booking) (w : World) : Prop :=
  appointments_file w = Some (Parses (store_json bs))
  \/ (bs = [] /\ appointments_file w = None).

(** A computation that leaves a component [f] of the world as it found it. *)
Definition preserves {A B} (f : World -> B) (c : M A) : Prop :=
  forall w, f (snd (c w)) = f w.

(** What the remote store keeps while its conflict queries are honoured. *)
Definition remote_inv (w : World) : Prop := all_appointments w /\ remote_unique w.

(** A remote store that already holds one appointment. *)
Definition one_booked : World :=
  {| sanity_docs := [pending_doc "Ali" "ali@example.com" "Dr. Khan" "2025-01-01" "11:00 AM"];
     http_log := [];
     appointments_file :=
       Some (Parses (store_json [mk_booking "Ali" "Dr. Khan" "2025-01-01" "11:00 AM"]));
     fs_log := [] |}.

(** A local file whose second record lacks the [date] key. *)
Definition damaged_file : World :=
  {| sanity_docs := [];
     http_log := [];
     appointments_file :=
       Some (Parses (JList [record_json "Ali" "Dr. Khan" "2025-01-01" "11:00 AM";
                            JObj [("doctor", JStr "Dr. Ahmed")]]));
     fs_log := [] |}.

(** ** What the tools do beyond the booking rules *)

(** The two stores of a world, without the logs. *)
Definition stores (w : World) : list AppointmentDoc * option parsed :=
  (sanity_docs w, appointments_file w).

(** A computation that reads nothing of the world but the component [f]:
    in two worlds that agree on [f] it gives the same result and leaves the
    same [f]. *)
Definition reads_only {A B} (f : World -> B) (c : M A) : Prop :=
  forall w1 w2,
    f w1 = f w2 ->
    fst (c w1) = fst (c w2) /\ f (snd (c w1)) = f (snd (c w2)).

(** The text a tool hands back, for the tools that hand back a text. *)
Definition run_call_text (c : call) (w : World) : option (result string) :=
  match c with
  | Save env p e d dt t => Some (fst (save_appointment env p e d dt t w))
  | GetDoctors => None
  | Notify how p d dt t => Some (fst (send_doctor_request how p d dt t w))
  | Confirm env p d dt t => Some (fst (confirm_patient env p d dt t w))
  end.

(** The write of a [Confirm] call does not fail during the dump. *)
Definition dump_completes (c : call) : bool :=
  match c with
  | Confirm env _ _ _ _ =>
      match on_write env with
      | DumpFails _ _ => false
      | _ => true
      end
  | _ => true
  end.

Definition is_list (v : json) : bool :=
  match v with
  | JList _ => true
  | _ => false
  end.

Definition is_dict (v : json) : bool :=
  match v with
  | JObj _ => true
  | _ => false
  end.

(** The failure text of [confirm_patient] for an exception with text [msg]. *)
Definition confirm_failure (msg : string) : string :=
  ("❌ Failed to confirm appointment: " ++ msg)%string.

(** The list the scan of [confirm_patient] runs over: empty for an absent
    file, the stored list otherwise. *)
Definition listed (w : World) (items : list json) : Prop :=
  (appointments_file w = None /\ items = [])
  \/ appointments_file w = Some (Parses (JList items)).

(** A stored record of another doctor: a dict whose [doctor] value is not
    the string [d]. *)
Definition other_doctor (d : string) (a : json) : bool :=
  match a with
  | JObj fields =>
      match dict_lookup fields "doctor" with
      | Some v => negb (eq_str v d)
      | None => false
      end
  | _ => false
  end.

(** A stored record the scan passes over for the slot: the comparison
    raises nothing and is false. *)
Definition passed_over (s : slot) (a : json) : bool :=
  match s with
  | (d, dt, t) =>
      match same_slot a d dt t with
      | Returned false => true
      | _ => false
      end
  end.

(** The world [confirm_patient] leaves when it stops before any write: the
    existence test, and the read when the file is there. *)
Definition after_read (w : World) : World :=
  match appointments_file w with
  | None => log_fs EvExists w
  | Some _ => log_fs EvOpenRead (log_fs EvExists w)
  end.

(** A stored record without the [doctor] key. *)
Definition lacks_doctor (a : json) : bool :=
  match a with
  | JObj fields =>
      match dict_lookup fields "doctor" with
      | Some _ => false
      | None => true
      end
  | _ => false
  end.

(** A file whose list starts with a record of another doctor that has no
    [date] and no [time], followed by a record without any key. *)
Definition ragged_file : World :=
  {| sanity_docs := [];
     http_log := [];
     appointments_file :=
       Some (Parses (JList [JObj [("doctor", JStr "Dr. Ahmed")]; JObj []]));
     fs_log := [] |}.

(** A file the decoder rejects. *)
Definition broken_file : World :=
  {| sanity_docs := [];
     http_log := [];
     appointments_file := Some (Unparseable "Expecting value: line 1 column 1 (char 0)");
     fs_log := [] |}.

(** A file that holds a dict instead of a list. *)
Definition dict_file : World :=
  {| sanity_docs := [];
     http_log := [];
     appointments_file := Some (Parses (JObj [("appointments", JList [])]));
     fs_log := [] |}.

(** The three calls of one booking, in the order the agent's instructions
    give them: notify the doctor, save to the remote store, confirm
    locally. *)
Definition booking (how : reply) (senv : sanity_env) (fenv : fs_env)
    (p e d dt t : string) : list call :=
  [Notify how p d dt t; Save senv p e d dt t; Confirm fenv p d dt t].

(** * Properties of the tools *)

(** ** Slots and the scan of the local records *)

Lemma slot_eqb_eq (a b : slot) : slot_eqb a b = true <-> a = b.
Proof.
  destruct a as [[d1 dt1] t1], b as [[d2 dt2] t2]; simpl.
  rewrite !andb_true_iff, !String.eqb_eq.
  split.
  - intros [[-> ->] ->]; reflexivity.
  - intros H; inversion H; auto.
Qed.

Lemma slot_eqb_refl (a : slot) : slot_eqb a a = true.
Proof. apply slot_eqb_eq; reflexivity. Qed.

Lemma booked_in_In s bs : booked_in s bs = true <-> In s (map booking_slot bs).
Proof.
  unfold booked_in. rewrite existsb_exists, in_map_iff.
  split; intros [b [H1 H2]]; exists b.
  - apply slot_eqb_eq in H2. auto.
  - split; [ assumption | apply slot_eqb_eq; assumption ].
Qed.

(** On records that have the three keys the scan raises nothing and finds
    the slot exactly when one of them holds it. *)
Lemma same_slot_keys a d dt t :
  has_slot_keys a = true ->
  same_slot a d dt t = Returned (holds_slot (d, dt, t) a).
Proof.
  destruct a as [ | | | | | | fields ]; try discriminate.
  unfold has_slot_keys, holds_slot, same_slot, subscript.
  destruct (dict_lookup fields "doctor") as [v1 | ]; [ | discriminate ].
  destruct (dict_lookup fields "date") as [v2 | ]; [ | discriminate ].
  destruct (dict_lookup fields "time") as [v3 | ]; [ | discriminate ].
  intros _. cbn [rbind].
  destruct (eq_str v1 d); [ | reflexivity ].
  destruct (eq_str v2 dt); reflexivity.
Qed.

Lemma scan_keys items d dt t :
  forallb has_slot_keys items = true ->
  scan items d dt t = Returned (existsb (holds_slot (d, dt, t)) items).
Proof.
  induction items as [ | a items IH ]; [ reflexivity | ].
  cbn [forallb scan existsb]. intros H. apply andb_true_iff in H.
  destruct H as [Ha Hrest].
  rewrite (same_slot_keys a d dt t Ha). cbn [rbind].
  destruct (holds_slot (d, dt, t) a); [ reflexivity | exact (IH Hrest) ].
Qed.

Lemma bookings_have_keys bs : forallb has_slot_keys (map booking_json bs) = true.
Proof. induction bs as [ | b bs IH ]; [ reflexivity | exact IH ]. Qed.

Lemma holds_slot_booking s b :
  holds_slot s (booking_json b) = slot_eqb (booking_slot b) s.
Proof. destruct s as [[d dt] t]. reflexivity. Qed.

Lemma bookings_hold_slot s bs :
  existsb (holds_slot s) (map booking_json bs) = booked_in s bs.
Proof.
  unfold booked_in. induction bs as [ | b bs IH ]; [ reflexivity | ].
  cbn [map existsb]. rewrite holds_slot_booking, IH. reflexivity.
Qed.

(** Unfolds a call of [confirm_patient] down to the file operations. *)
Ltac run_confirm_patient :=
  unfold confirm_patient, try_except_Exception, confirm_patient_body, bind,
    os_path_exists, json_load_open, lift, open_w_dump, ret.

(** The whole of a [confirm_patient] call on a file that can be read and
    holds a list of records with the three keys. *)
Lemma confirm_patient_read_items env p d dt t w items :
  appointments_file w = Some (Parses (JList items)) ->
  forallb has_slot_keys items = true ->
  read_refused env = None ->
  confirm_patient env p d dt t w =
    let w1 := log_fs EvOpenRead (log_fs EvExists w) in
    if existsb (holds_slot (d, dt, t)) items
    then (Returned SlotAlreadyBooked_local, w1)
    else
      let w2 := log_fs EvOpenWrite w1 in
      match on_write env with
      | Written =>
          (Returned (confirmation (mk_booking p d dt t)),
           log_fs EvDump
             (set_file (Some (Parses (JList (items ++ [record_json p d dt t])))) w2))
      | OpenRefused msg =>
          (Returned ("❌ Failed to confirm appointment: " ++ msg)%string, w2)
      | DumpFails msg why =>
          (Returned ("❌ Failed to confirm appointment: " ++ msg)%string,
           log_fs EvDump (set_file (Some (Unparseable why)) w2))
      end.
Proof.
  intros Hfile Hkeys Hread.
  run_confirm_patient.
  rewrite Hfile, Hread; simpl. rewrite Hfile; simpl.
  rewrite (scan_keys items d dt t Hkeys).
  destruct (existsb (holds_slot (d, dt, t)) items); [ reflexivity | ].
  destruct (on_write env); reflexivity.
Qed.

(** The same for a file that holds the bookings [bs]. *)
Lemma confirm_patient_read env p d dt t w bs :
  appointments_file w = Some (Parses (store_json bs)) ->
  read_refused env = None ->
  confirm_patient env p d dt t w =
    let w1 := log_fs EvOpenRead (log_fs EvExists w) in
    if booked_in (d, dt, t) bs then (Returned SlotAlreadyBooked_local, w1)
    else
      let w2 := log_fs EvOpenWrite w1 in
      match on_write env with
      | Written =>
          (Returned (confirmation (mk_booking p d dt t)),
           log_fs EvDump
             (set_file (Some (Parses (store_json (bs ++ [mk_booking p d dt t])))) w2))
      | OpenRefused msg =>
          (Returned ("❌ Failed to confirm appointment: " ++ msg)%string, w2)
      | DumpFails msg why =>
          (Returned ("❌ Failed to confirm appointment: " ++ msg)%string,
           log_fs EvDump (set_file (Some (Unparseable why)) w2))
      end.
Proof.
  intros Hfile Hread.
  rewrite (confirm_patient_read_items env p d dt t w (map booking_json bs)
             Hfile (bookings_have_keys bs) Hread).
  rewrite bookings_hold_slot. unfold store_json. rewrite map_app. reflexivity.
Qed.

(** The whole of a [confirm_patient] call when the file is absent. *)
Lemma confirm_patient_absent env p d dt t w :
  appointments_file w = None ->
  confirm_patient env p d dt t w =
    let w2 := log_fs EvOpenWrite (log_fs EvExists w) in
    match on_write env with
    | Written =>
        (Returned (confirmation (mk_booking p d dt t)),
         log_fs EvDump
           (set_file (Some (Parses (store_json [mk_booking p d dt t]))) w2))
    | OpenRefused msg =>
        (Returned ("❌ Failed to confirm appointment: " ++ msg)%string, w2)
    | DumpFails msg why =>
        (Returned ("❌ Failed to confirm appointment: " ++ msg)%string,
         log_fs EvDump (set_file (Some (Unparseable why)) w2))
    end.
Proof.
  intros Hfile.
  run_confirm_patient.
  rewrite Hfile; simpl.
  destruct (on_write env); simpl; reflexivity.
Qed.

(** ** What the body of a tool can raise *)
Lemma catchable_throw {A} (c : exn_class) (msg : string) :
  is_Exception c = true -> catchable (@throw A c msg).
Proof. intros H; exact H. Qed.

Lemma catchable_rbind {A B} (c : result A) (k : A -> result B) :
  catchable c -> (forall a, catchable (k a)) -> catchable (rbind c k).
Proof. destruct c as [a | e]; simpl; auto. Qed.

Lemma catchable_subscript a k : catchable (subscript a k).
Proof.
  destruct a; simpl; try reflexivity.
  destruct (dict_lookup fields k); simpl; reflexivity.
Qed.

Lemma catchable_same_slot a d dt t : catchable (same_slot a d dt t).
Proof.
  unfold same_slot.
  apply catchable_rbind; [ apply catchable_subscript | intros v1 ].
  destruct (eq_str v1 d); [ | exact I ].
  apply catchable_rbind; [ apply catchable_subscript | intros v2 ].
  destruct (eq_str v2 dt); [ | exact I ].
  apply catchable_rbind; [ apply catchable_subscript | intros v3; exact I ].
Qed.

Lemma catchable_scan items d dt t : catchable (scan items d dt t).
Proof.
  induction items as [ | a rest IH ]; [ exact I | ].
  cbn [scan]. apply catchable_rbind; [ apply catchable_same_slot | ].
  intros [ | ]; [ exact I | exact IH ].
Qed.

Lemma catchable_iterate data : catchable (iterate data).
Proof. destruct data; simpl; reflexivity || exact I. Qed.

Lemma catchable_append_method data x : catchable (append_method data x).
Proof. destruct data; simpl; reflexivity || exact I. Qed.

Lemma catchable_M_ret {A} (a : A) : catchable_M (ret a).
Proof. intros w; exact I. Qed.

Lemma catchable_M_lift {A} (r : result A) : catchable r -> catchable_M (lift r).
Proof. intros H w; exact H. Qed.

Lemma catchable_M_bind {A B} (c : M A) (k : A -> M B) :
  catchable_M c -> (forall a, catchable_M (k a)) -> catchable_M (bind c k).
Proof.
  intros Hc Hk w. unfold bind. specialize (Hc w).
  destruct (c w) as [[a | e] w']; simpl in *; [ apply Hk | exact Hc ].
Qed.

Lemma catchable_M_os_path_exists : catchable_M os_path_exists.
Proof. intros w; exact I. Qed.

Lemma catchable_M_json_load_open env : catchable_M (json_load_open env).
Proof.
  intros w. unfold json_load_open.
  destruct (read_refused env); [ reflexivity | ].
  destruct (appointments_file _) as [[why | v] | ]; simpl; reflexivity || exact I.
Qed.

Lemma catchable_M_open_w_dump env data : catchable_M (open_w_dump env data).
Proof.
  intros w. unfold open_w_dump.
  destruct (on_write env); simpl; reflexivity || exact I.
Qed.

Create HintDb catch.

#[local] Hint Resolve catchable_subscript catchable_same_slot catchable_scan
  catchable_iterate catchable_append_method catchable_M_ret catchable_M_lift
  catchable_M_os_path_exists catchable_M_json_load_open catchable_M_open_w_dump
  : catch.

(** Every exception the body of [confirm_patient] can raise derives from
    [Exception]. *)
Lemma catchable_M_confirm_patient_body env p d dt t :
  catchable_M (confirm_patient_body env p d dt t).
Proof.
  unfold confirm_patient_body.
  apply catchable_M_bind; [ auto with catch | intros present ].
  apply catchable_M_bind; [ destruct present; auto with catch | intros data ].
  apply catchable_M_bind; [ auto with catch | intros items ].
  apply catchable_M_bind; [ auto with catch | intros booked ].
  destruct booked; [ auto with catch | ].
  apply catchable_M_bind; [ auto with catch | intros data' ].
  apply catchable_M_bind; auto with catch.
Qed.

(** C9.  [confirm_patient] always returns a string and never raises, in
    every state of the file (absent, rejected by the decoder, holding any
    JSON value, records without the keys included) and however the file
    system treats the read and the write: when its body raises an exception
    [e], the result is the failure text "Failed to confirm appointment"
    followed by [str(e)]; when the body returns, its string is returned. *)
Theorem confirm_patient_total env p d dt t w :
  exists s,
    fst (confirm_patient env p d dt t w) = Returned s
    /\ (forall e, fst (confirm_patient_body env p d dt t w) = Raised e ->
          s = ("❌ Failed to confirm appointment: " ++ exn_str e)%string)
    /\ (forall s', fst (confirm_patient_body env p d dt t w) = Returned s' -> s = s').
Proof.
  pose proof (catchable_M_confirm_patient_body env p d dt t w) as Hc.
  unfold confirm_patient, try_except_Exception.
  destruct (confirm_patient_body env p d dt t w) as [[s | e] w']; simpl in *.
  - exists s. repeat split; intros; congruence.
  - rewrite Hc; simpl. eexists. repeat split; intros; congruence.
Qed.

(** ** The notification never raises *)

(** C5.  [send_doctor_request] never raises: for every input and every
    behaviour of the webhook it returns a string, which is the success text
    exactly when the endpoint answers with status 200, the text with the
    status code for any other status, and the text with the exception's
    message when [requests.post] raises. *)
Theorem send_doctor_request_never_raises how p d dt t w :
  exists s,
    fst (send_doctor_request how p d dt t w) = Returned s
    /\ (s = WebhookNotified <-> reply_status how = Some 200%Z)
    /\ (forall code, reply_status how = Some code -> code <> 200%Z ->
          s = ("❌ Webhook failed (" ++ str_of_int code ++ ")")%string)
    /\ (forall msg, how = Unreachable msg ->
          s = ("❌ Webhook error: " ++ msg)%string).
Proof.
  unfold send_doctor_request, try_except_Exception, bind, requests_post, ret.
  destruct how as [ | r | msg ]; simpl.
  - exists WebhookNotified. repeat split; intros; congruence.
  - destruct (status_code r =? 200)%Z eqn:E; eexists; (split; [ reflexivity | ]).
    + apply Z.eqb_eq in E. rewrite E. repeat split; intros; congruence.
    + apply Z.eqb_neq in E. repeat split; intros; try congruence; discriminate.
  - eexists; split; [ reflexivity | ]. repeat split; intros; try congruence; discriminate.
Qed.

(** ** The local log: duplicates and appends *)

(** C2.  When the local file holds a list of records that have the three
    keys and the requested (doctor, date, time) is the slot of one of them,
    [confirm_patient] returns the slot-already-booked text, the file keeps
    its content, and the only file operations are the existence test and the
    read: nothing is opened for writing. *)
Theorem confirm_patient_duplicate_rejected env p d dt t w items :
  appointments_file w = Some (Parses (JList items)) ->
  forallb has_slot_keys items = true ->
  existsb (holds_slot (d, dt, t)) items = true ->
  read_refused env = None ->
  fst (confirm_patient env p d dt t w) = Returned SlotAlreadyBooked_local
  /\ appointments_file (snd (confirm_patient env p d dt t w)) = appointments_file w
  /\ fs_log (snd (confirm_patient env p d dt t w)) = fs_log w ++ [EvExists; EvOpenRead].
Proof.
  intros Hfile Hkeys Hin Hread.
  rewrite (confirm_patient_read_items env p d dt t w items Hfile Hkeys Hread).
  cbv zeta. rewrite Hin. simpl.
  repeat split. rewrite <- app_assoc. reflexivity.
Qed.

Lemma file_is_stored bs w : file_is bs w -> stored_items w = map booking_json bs.
Proof.
  unfold stored_items. intros [H | [-> H]]; rewrite H; reflexivity.
Qed.

Lemma confirm_booking_fresh b bs w :
  file_is bs w ->
  ~ In (booking_slot b) (map booking_slot bs) ->
  fst (confirm_booking healthy b w) = Returned (confirmation b)
  /\ file_is (bs ++ [b]) (snd (confirm_booking healthy b w)).
Proof.
  intros Hfile Hfresh. unfold confirm_booking.
  assert (Hb : mk_booking (b_patient b) (b_doctor b) (b_date b) (b_time b) = b)
    by (destruct b; reflexivity).
  destruct Hfile as [Hfile | [-> Hfile]].
  - rewrite (confirm_patient_read healthy _ _ _ _ w bs Hfile eq_refl).
    cbv zeta.
    destruct (booked_in (b_doctor b, b_date b, b_time b) bs) eqn:E.
    + apply booked_in_In in E. contradiction.
    + simpl. rewrite Hb. split; [ reflexivity | left; reflexivity ].
  - rewrite (confirm_patient_absent healthy _ _ _ _ w Hfile).
    simpl. rewrite Hb. split; [ reflexivity | left; reflexivity ].
Qed.

Lemma confirm_all_fresh bs : forall pre w,
  file_is pre w ->
  NoDup (map booking_slot (pre ++ bs)) ->
  fst (confirm_all healthy bs w) = map (fun b => Returned (confirmation b)) bs
  /\ file_is (pre ++ bs) (snd (confirm_all healthy bs w)).
Proof.
  induction bs as [ | b bs IH ]; intros pre w Hfile Hnd.
  - simpl. rewrite app_nil_r. split; [ reflexivity | assumption ].
  - cbn [confirm_all].
    assert (Hfresh : ~ In (booking_slot b) (map booking_slot pre)).
    { rewrite map_app in Hnd. cbn [map] in Hnd.
      apply NoDup_remove_2 in Hnd. intros Hin. apply Hnd.
      apply in_or_app. left. exact Hin. }
    destruct (confirm_booking_fresh b pre w Hfile Hfresh) as [Hr Hw].
    destruct (confirm_booking healthy b w) as [r w1]. simpl in Hr, Hw.
    specialize (IH (pre ++ [b]) w1 Hw).
    rewrite <- app_assoc in IH. simpl in IH. specialize (IH Hnd).
    destruct (confirm_all healthy bs w1) as [rs w2]. simpl in *.
    destruct IH as [IH1 IH2]. subst. split; [ reflexivity | assumption ].
Qed.

Lemma local_store_empty_file_is w : local_store_empty w -> file_is [] w.
Proof. intros [H | H]; [ right; auto | left; exact H ]. Qed.

Lemma NoDup_map_firstn {A B} (f : A -> B) (k : nat) (l : list A) :
  NoDup (map f l) -> NoDup (map f (firstn k l)).
Proof.
  intros H. rewrite <- (firstn_skipn k l), map_app in H.
  exact (NoDup_app_remove_r _ _ H).
Qed.

(** C3.  From an absent or empty local file, [confirm_patient] called on
    bookings with pairwise distinct slots succeeds on every call, and the
    file then holds exactly those records in call order: after the first [k]
    calls it holds the first [k] records, so each record is appended at the
    end, and after all [N] calls it holds [N] records. *)
Theorem confirm_patient_appends_in_order (bs : list Booking) (w : World) :
  local_store_empty w ->
  NoDup (map booking_slot bs) ->
  fst (confirm_all healthy bs w) = map (fun b => Returned (confirmation b)) bs
  /\ stored_items (snd (confirm_all healthy bs w)) = map booking_json bs
  /\ length (stored_items (snd (confirm_all healthy bs w))) = length bs
  /\ (forall k, stored_items (snd (confirm_all healthy (firstn k bs) w))
                = firstn k (map booking_json bs)).
Proof.
  intros Hempty Hnd. apply local_store_empty_file_is in Hempty.
  destruct (confirm_all_fresh bs [] w Hempty Hnd) as [Hr Hw].
  apply file_is_stored in Hw. simpl in Hw.
  split; [ exact Hr | ]. split; [ exact Hw | ].
  split; [ rewrite Hw; apply length_map | ].
  intros k.
  destruct (confirm_all_fresh (firstn k bs) [] w Hempty
              (NoDup_map_firstn booking_slot k bs Hnd)) as [_ Hk].
  apply file_is_stored in Hk. simpl in Hk. rewrite Hk. symmetry. apply firstn_map.
Qed.

(** ** The two outcomes of the conflict check *)
Lemma requests_post_answer how req w :
  (forall w', fst (serve req (log_request req w')) = fst (serve req w')) ->
  match answer how req w with
  | Some r => fst (requests_post req how w) = Returned r
  | None => exists msg, fst (requests_post req how w) = throw RequestException msg
  end.
Proof.
  intros Hs. unfold requests_post. destruct how as [ | r | msg ]; simpl.
  - rewrite <- (Hs w). destruct (serve req (log_request req w)); reflexivity.
  - reflexivity.
  - exists msg; reflexivity.
Qed.

Lemma serve_query_logged d dt t req w :
  serve (QueryRequest d dt t) (log_request req w)
  = (fst (serve (QueryRequest d dt t) w), log_request req w).
Proof. reflexivity. Qed.

Lemma save_appointment_booked env p e d dt t w check :
  answer (on_query env) (QueryRequest d dt t) w = Some check ->
  conflict_found check = Returned true ->
  save_appointment env p e d dt t w
  = (Returned SlotAlreadyBooked_remote, log_request (QueryRequest d dt t) w).
Proof.
  intros Hans Hcheck.
  unfold save_appointment, bind, requests_post, lift, ret.
  destruct (on_query env) as [ | r | msg ]; cbn [answer] in Hans;
    [ rewrite serve_query_logged;
      replace (fst (serve (QueryRequest d dt t) w)) with check by congruence
    | replace r with check by congruence
    | discriminate ];
    cbv beta iota; rewrite Hcheck; reflexivity.
Qed.

Lemma save_appointment_free env p e d dt t w check :
  answer (on_query env) (QueryRequest d dt t) w = Some check ->
  conflict_found check = Returned false ->
  save_appointment env p e d dt t w
  = let doc := pending_doc p e d dt t in
    let w2 := log_request (MutateRequest doc) (log_request (QueryRequest d dt t) w) in
    match on_mutate env with
    | Served => (Returned SinkSaved, set_docs (sanity_docs w ++ [doc]) w2)
    | Answers r =>
        (Returned (if (status_code r =? 200)%Z then SinkSaved else SinkWriteFailed), w2)
    | Unreachable msg => (throw RequestException msg, w2)
    end.
Proof.
  intros Hans Hcheck.
  unfold save_appointment, bind, requests_post, lift, ret.
  destruct (on_query env) as [ | r | msg ]; cbn [answer] in Hans;
    [ rewrite serve_query_logged;
      replace (fst (serve (QueryRequest d dt t) w)) with check by congruence
    | replace r with check by congruence
    | discriminate ];
    cbv beta iota; rewrite Hcheck;
    destruct (on_mutate env); reflexivity.
Qed.

Lemma find_query_matches s docs :
  match find (query_matches s) docs with
  | Some doc => In doc docs /\ doc_type doc = "appointment" /\ doc_slot doc = s
  | None => forall doc, In doc docs -> doc_type doc = "appointment" -> doc_slot doc <> s
  end.
Proof.
  destruct (find (query_matches s) docs) as [doc | ] eqn:E.
  - apply find_some in E. destruct E as [Hin Hm].
    unfold query_matches in Hm. apply andb_true_iff in Hm. destruct Hm as [H1 H2].
    apply String.eqb_eq in H1. apply slot_eqb_eq in H2. auto.
  - intros doc Hin Hty Hs.
    pose proof (find_none _ _ E doc Hin) as Hm.
    unfold query_matches in Hm. rewrite Hty, String.eqb_refl in Hm. cbn [andb] in Hm.
    rewrite Hs, slot_eqb_refl in Hm. discriminate.
Qed.

Lemma conflict_found_served d dt t w :
  conflict_found (fst (serve (QueryRequest d dt t) w))
  = Returned (match find (query_matches (d, dt, t)) (sanity_docs w) with
              | Some _ => true
              | None => false
              end).
Proof.
  unfold conflict_found; simpl.
  destruct (find (query_matches (d, dt, t)) (sanity_docs w)); reflexivity.
Qed.

Lemma conflict_found_booked d dt t w :
  remotely_booked (d, dt, t) w ->
  conflict_found (fst (serve (QueryRequest d dt t) w)) = Returned true.
Proof.
  intros [doc [Hin [Hty Hs]]]. rewrite conflict_found_served.
  pose proof (find_query_matches (d, dt, t) (sanity_docs w)) as Hf.
  destruct (find (query_matches (d, dt, t)) (sanity_docs w)); [ reflexivity | ].
  exfalso. exact (Hf doc Hin Hty Hs).
Qed.

Lemma conflict_found_not_booked d dt t w :
  ~ remotely_booked (d, dt, t) w ->
  conflict_found (fst (serve (QueryRequest d dt t) w)) = Returned false.
Proof.
  intros Hfree. rewrite conflict_found_served.
  pose proof (find_query_matches (d, dt, t) (sanity_docs w)) as Hf.
  destruct (find (query_matches (d, dt, t)) (sanity_docs w)) as [doc | ];
    [ | reflexivity ].
  exfalso. apply Hfree. exists doc. exact Hf.
Qed.

(** C1.  With the conflict query evaluated by the store: when the store
    holds an appointment for the same (doctorName, date, time),
    [save_appointment] returns the slot-already-booked text, sends the query
    and no create mutation, and the store keeps its documents; when it holds
    none, the call sends exactly one create mutation, for the pending
    document, and the store gains exactly that one document when it
    processes the mutation and none otherwise. *)
Theorem save_appointment_conflict_checked env p e d dt t w :
  on_query env = Served ->
  let r := fst (save_appointment env p e d dt t w) in
  let w' := snd (save_appointment env p e d dt t w) in
  (remotely_booked (d, dt, t) w ->
     r = Returned SlotAlreadyBooked_remote
     /\ http_log w' = http_log w ++ [QueryRequest d dt t]
     /\ sanity_docs w' = sanity_docs w)
  /\ (~ remotely_booked (d, dt, t) w ->
     http_log w' = http_log w ++ [QueryRequest d dt t;
                                  MutateRequest (pending_doc p e d dt t)]
     /\ (on_mutate env = Served ->
           sanity_docs w' = sanity_docs w ++ [pending_doc p e d dt t])
     /\ (on_mutate env <> Served -> sanity_docs w' = sanity_docs w)).
Proof.
  intros Hq r w'. subst r w'.
  assert (Hans : answer (on_query env) (QueryRequest d dt t) w
                 = Some (fst (serve (QueryRequest d dt t) w)))
    by (rewrite Hq; reflexivity).
  split; intros Hb.
  - rewrite (save_appointment_booked env p e d dt t w _ Hans
               (conflict_found_booked d dt t w Hb)).
    repeat split.
  - rewrite (save_appointment_free env p e d dt t w _ Hans
               (conflict_found_not_booked d dt t w Hb)).
    cbv zeta. destruct (on_mutate env) as [ | resp | msg ]; simpl;
      (split; [ rewrite <- app_assoc; reflexivity | ]);
      split; intros H; congruence.
Qed.

(** C6.  When the conflict check finds no record, [save_appointment]
    sends one create mutation whose document has type "appointment", status
    "pending" and the five supplied fields, and it returns the success text
    if and only if the store's answer to the mutation has status 200; for
    any other status it returns the write-failed text. *)
Theorem save_appointment_creates_pending env p e d dt t w check :
  answer (on_query env) (QueryRequest d dt t) w = Some check ->
  conflict_found check = Returned false ->
  let r := fst (save_appointment env p e d dt t w) in
  let w' := snd (save_appointment env p e d dt t w) in
  (exists doc,
      http_log w' = http_log w ++ [QueryRequest d dt t; MutateRequest doc]
      /\ doc_type doc = "appointment" /\ status doc = "pending"
      /\ patientName doc = p /\ email doc = e
      /\ doctorName doc = d /\ date doc = dt /\ time doc = t)
  /\ (forall code, reply_status (on_mutate env) = Some code ->
        (r = Returned SinkSaved <-> code = 200%Z)
        /\ (code <> 200%Z -> r = Returned SinkWriteFailed)).
Proof.
  intros Hans Hcheck r w'. subst r w'.
  rewrite (save_appointment_free env p e d dt t w check Hans Hcheck). cbv zeta.
  split.
  - exists (pending_doc p e d dt t).
    split; [ | repeat split ].
    destruct (on_mutate env); simpl; rewrite <- app_assoc; reflexivity.
  - intros code Hcode.
    destruct (on_mutate env) as [ | resp | msg ]; simpl in *.
    + injection Hcode as <-. repeat split; intros; congruence.
    + injection Hcode as <-.
      destruct (status_code resp =? 200)%Z eqn:E.
      * apply Z.eqb_eq in E. repeat split; intros; congruence.
      * apply Z.eqb_neq in E. repeat split; intros; try congruence; discriminate.
    + discriminate.
Qed.

(** C8.  When the answer to the conflict query has a status other than
    200, or carries a [result] that is empty (falsy), the check reports no
    conflict and [save_appointment] sends the create mutation all the same;
    a store that processes it then holds the new document, so a slot that
    was already booked is now booked twice. *)
Theorem save_appointment_fails_open env p e d dt t w check :
  answer (on_query env) (QueryRequest d dt t) w = Some check ->
  (status_code check <> 200%Z
   \/ (exists j v, body check = Parses j /\ get_method j "result" = Returned v
                   /\ truthy v = false)) ->
  let w' := snd (save_appointment env p e d dt t w) in
  conflict_found check = Returned false
  /\ fst (save_appointment env p e d dt t w) <> Returned SlotAlreadyBooked_remote
  /\ http_log w' = http_log w ++ [QueryRequest d dt t;
                                  MutateRequest (pending_doc p e d dt t)]
  /\ (on_mutate env = Served ->
        sanity_docs w' = sanity_docs w ++ [pending_doc p e d dt t]
        /\ (In (d, dt, t) (map doc_slot (sanity_docs w)) -> ~ remote_unique w')).
Proof.
  intros Hans Hfail w'. subst w'.
  assert (Hcheck : conflict_found check = Returned false).
  { unfold conflict_found. destruct Hfail as [Hne | [j [v [Hb [Hg Ht]]]]].
    - apply Z.eqb_neq in Hne. rewrite Hne. reflexivity.
    - destruct (status_code check =? 200)%Z; [ | reflexivity ].
      unfold response_json. rewrite Hb. simpl. rewrite Hg. simpl. rewrite Ht.
      reflexivity. }
  split; [ exact Hcheck | ].
  rewrite (save_appointment_free env p e d dt t w check Hans Hcheck). cbv zeta.
  split; [ | split ].
  - destruct (on_mutate env) as [ | resp | msg ]; simpl; try discriminate.
    destruct (status_code resp =? 200)%Z; discriminate.
  - destruct (on_mutate env); simpl; rewrite <- app_assoc; reflexivity.
  - intros Hm. rewrite Hm. simpl. split; [ reflexivity | ].
    intros Hin Hnd. unfold remote_unique in Hnd. simpl in Hnd.
    rewrite map_app in Hnd. simpl in Hnd.
    apply NoDup_remove_2 in Hnd. apply Hnd. rewrite app_nil_r. exact Hin.
Qed.

Lemma preserves_ret {A B} (f : World -> B) (a : A) : preserves f (ret a).
Proof. intros w; reflexivity. Qed.

Lemma preserves_lift {A B} (f : World -> B) (r : result A) : preserves f (lift r).
Proof. intros w; reflexivity. Qed.

Lemma preserves_bind {A A' B} (f : World -> B) (c : M A) (k : A -> M A') :
  preserves f c -> (forall a, preserves f (k a)) -> preserves f (bind c k).
Proof.
  intros Hc Hk w. unfold bind. specialize (Hc w).
  destruct (c w) as [[a | e] w1]; simpl in *.
  - rewrite Hk. exact Hc.
  - exact Hc.
Qed.

Lemma preserves_try {A B} (f : World -> B) (c : M A) (h : exn -> M A) :
  preserves f c -> (forall e, preserves f (h e)) ->
  preserves f (try_except_Exception c h).
Proof.
  intros Hc Hh w. unfold try_except_Exception. specialize (Hc w).
  destruct (c w) as [[a | e] w1]; simpl in *; [ exact Hc | ].
  destruct (is_Exception (exn_cls e)); simpl; [ rewrite Hh | ]; exact Hc.
Qed.

Lemma requests_post_keeps_file req how : preserves appointments_file (requests_post req how).
Proof.
  intros w. unfold requests_post.
  destruct how; [ destruct req | | ]; reflexivity.
Qed.

Lemma save_appointment_keeps_file env p e d dt t :
  preserves appointments_file (save_appointment env p e d dt t).
Proof.
  unfold save_appointment.
  apply preserves_bind; [ apply requests_post_keeps_file | intros check ].
  apply preserves_bind; [ apply preserves_lift | intros booked ].
  destruct booked; [ apply preserves_ret | ].
  apply preserves_bind; [ apply requests_post_keeps_file | intros resp ].
  apply preserves_ret.
Qed.

Lemma send_doctor_request_keeps_file how p d dt t :
  preserves appointments_file (send_doctor_request how p d dt t).
Proof.
  unfold send_doctor_request.
  apply preserves_try; [ | intros e; apply preserves_ret ].
  apply preserves_bind; [ apply requests_post_keeps_file | intros resp ].
  apply preserves_ret.
Qed.

Lemma send_doctor_request_keeps_docs how p d dt t :
  preserves sanity_docs (send_doctor_request how p d dt t).
Proof.
  unfold send_doctor_request.
  apply preserves_try; [ | intros e; apply preserves_ret ].
  apply preserves_bind; [ | intros resp; apply preserves_ret ].
  intros w. unfold requests_post. destruct how; reflexivity.
Qed.

Lemma confirm_patient_keeps_docs env p d dt t :
  preserves sanity_docs (confirm_patient env p d dt t).
Proof.
  unfold confirm_patient, confirm_patient_body.
  apply preserves_try; [ | intros e; apply preserves_ret ].
  apply preserves_bind; [ intros w; reflexivity | intros present ].
  apply preserves_bind.
  { destruct present; [ | apply preserves_ret ].
    intros w. unfold json_load_open.
    destruct (read_refused env); [ reflexivity | ].
    destruct (appointments_file _) as [[why | v] | ]; reflexivity. }
  intros data.
  apply preserves_bind; [ apply preserves_lift | intros items ].
  apply preserves_bind; [ apply preserves_lift | intros booked ].
  destruct booked; [ apply preserves_ret | ].
  apply preserves_bind; [ apply preserves_lift | intros data' ].
  apply preserves_bind; [ | intros _; apply preserves_ret ].
  intros w. unfold open_w_dump. destruct (on_write env); reflexivity.
Qed.

Lemma NoDup_snoc {A} (l : list A) (a : A) :
  NoDup l -> ~ In a l -> NoDup (l ++ [a]).
Proof.
  intros Hnd Hnin. induction Hnd as [ | x l Hx Hnd IH ]; simpl.
  - constructor; [ intros [] | constructor ].
  - constructor.
    + rewrite in_app_iff. intros [H | [H | []]]; [ contradiction | ].
      apply Hnin. left. symmetry. exact H.
    + apply IH. intros H. apply Hnin. right. exact H.
Qed.

(** ** The local file keeps one record per slot *)
Lemma confirm_patient_read_refused env p d dt t w msg c :
  read_refused env = Some msg ->
  appointments_file w = Some c ->
  appointments_file (snd (confirm_patient env p d dt t w)) = Some c.
Proof.
  intros Hread Hfile.
  run_confirm_patient.
  rewrite Hfile, Hread. simpl. exact Hfile.
Qed.

Lemma confirm_patient_unparseable env p d dt t w why :
  appointments_file w = Some (Unparseable why) ->
  appointments_file (snd (confirm_patient env p d dt t w)) = Some (Unparseable why).
Proof.
  intros Hfile.
  run_confirm_patient.
  rewrite Hfile. simpl. destruct (read_refused env); simpl.
  - exact Hfile.
  - rewrite Hfile. simpl. exact Hfile.
Qed.

Lemma confirm_patient_keeps_local_unique env p d dt t w :
  local_unique w -> local_unique (snd (confirm_patient env p d dt t w)).
Proof.
  unfold local_unique. intros Hinv.
  destruct (appointments_file w) as [[why | v] | ] eqn:Hfile.
  - rewrite (confirm_patient_unparseable env p d dt t w why Hfile). exact I.
  - destruct (read_refused env) as [msg | ] eqn:Hread.
    + rewrite (confirm_patient_read_refused env p d dt t w msg _ Hread Hfile).
      exact Hinv.
    + destruct Hinv as [bs [-> Hnd]].
      rewrite (confirm_patient_read env p d dt t w bs Hfile Hread). cbv zeta.
      destruct (booked_in (d, dt, t) bs) eqn:E; simpl.
      * rewrite Hfile. exists bs; auto.
      * destruct (on_write env); simpl.
        -- exists (bs ++ [mk_booking p d dt t]). split; [ reflexivity | ].
           rewrite map_app. apply NoDup_snoc; [ exact Hnd | ].
           intros Hin. apply (booked_in_In (d, dt, t)) in Hin. congruence.
        -- rewrite Hfile. exists bs; auto.
        -- exact I.
  - rewrite (confirm_patient_absent env p d dt t w Hfile). cbv zeta.
    destruct (on_write env); simpl.
    + exists [mk_booking p d dt t]. split; [ reflexivity | ].
      constructor; [ intros [] | constructor ].
    + rewrite Hfile. exact I.
    + exact I.
Qed.

Lemma run_call_keeps_local_unique c w :
  local_unique w -> local_unique (run_call c w).
Proof.
  destruct c as [env p e d dt t | | how p d dt t | env p d dt t ]; simpl.
  - unfold local_unique. rewrite save_appointment_keeps_file. auto.
  - auto.
  - unfold local_unique. rewrite send_doctor_request_keeps_file. auto.
  - apply confirm_patient_keeps_local_unique.
Qed.

Lemma save_appointment_unreachable env p e d dt t w msg :
  on_query env = Unreachable msg ->
  sanity_docs (snd (save_appointment env p e d dt t w)) = sanity_docs w.
Proof.
  intros Hq. unfold save_appointment, bind, requests_post. rewrite Hq. reflexivity.
Qed.

Lemma save_appointment_keeps_remote_inv env p e d dt t w :
  query_honoured (Save env p e d dt t) = true ->
  remote_inv w -> remote_inv (snd (save_appointment env p e d dt t w)).
Proof.
  unfold remote_inv, all_appointments, remote_unique. simpl.
  intros Hq [Hall Hnd].
  destruct (on_query env) as [ | r | msg ] eqn:Eq; [ | discriminate | ].
  - assert (Hans : answer (on_query env) (QueryRequest d dt t) w
                   = Some (fst (serve (QueryRequest d dt t) w)))
      by (rewrite Eq; reflexivity).
    pose proof (conflict_found_served d dt t w) as Hc.
    pose proof (find_query_matches (d, dt, t) (sanity_docs w)) as Hf.
    destruct (find (query_matches (d, dt, t)) (sanity_docs w)) as [doc | ].
    + rewrite (save_appointment_booked env p e d dt t w _ Hans Hc). auto.
    + rewrite (save_appointment_free env p e d dt t w _ Hans Hc). cbv zeta.
      destruct (on_mutate env); simpl; auto.
      split.
      * apply Forall_app. split; [ exact Hall | repeat constructor ].
      * rewrite map_app. apply NoDup_snoc; [ exact Hnd | ].
        simpl. intros Hin. apply in_map_iff in Hin.
        destruct Hin as [doc [Hs Hin]].
        rewrite Forall_forall in Hall.
        exact (Hf doc Hin (Hall doc Hin) Hs).
  - rewrite (save_appointment_unreachable env p e d dt t w msg Eq). auto.
Qed.

Lemma run_call_keeps_remote_inv c w :
  query_honoured c = true -> remote_inv w -> remote_inv (run_call c w).
Proof.
  destruct c as [env p e d dt t | | how p d dt t | env p d dt t ];
    cbn [run_call]; intros Hq Hinv.
  - apply save_appointment_keeps_remote_inv; assumption.
  - exact Hinv.
  - unfold remote_inv, all_appointments, remote_unique in *.
    rewrite send_doctor_request_keeps_docs. exact Hinv.
  - unfold remote_inv, all_appointments, remote_unique in *.
    rewrite confirm_patient_keeps_docs. exact Hinv.
Qed.

Lemma run_calls_keeps_local_unique cs : forall w,
  local_unique w -> local_unique (run_calls cs w).
Proof.
  induction cs as [ | c cs IH ]; intros w Hinv; [ exact Hinv | ].
  apply IH. apply run_call_keeps_local_unique. exact Hinv.
Qed.

Lemma run_calls_keeps_remote_inv cs : forall w,
  forallb query_honoured cs = true -> remote_inv w -> remote_inv (run_calls cs w).
Proof.
  induction cs as [ | c cs IH ]; intros w Hq Hinv; [ exact Hinv | ].
  simpl in Hq. apply andb_true_iff in Hq. destruct Hq as [Hc Hcs].
  apply IH; [ exact Hcs | ]. apply run_call_keeps_remote_inv; assumption.
Qed.

(** C4, amended.  From empty stores and after any sequence of calls, the
    local file holds at most one record per slot; the remote store holds at
    most one document per slot as long as the conflict query of every
    [save_appointment] call was evaluated by the store or got no response at
    all. *)
Theorem sinks_unique_while_queries_honoured (cs : list call) (w0 : World) :
  sanity_docs w0 = [] ->
  local_store_empty w0 ->
  local_unique (run_calls cs w0)
  /\ (forallb query_honoured cs = true -> remote_unique (run_calls cs w0)).
Proof.
  intros Hdocs Hlocal. split.
  - apply run_calls_keeps_local_unique. unfold local_unique.
    destruct Hlocal as [H | H]; rewrite H; [ exact I | ].
    exists []. split; [ reflexivity | constructor ].
  - intros Hq. apply (run_calls_keeps_remote_inv cs w0 Hq).
    unfold remote_inv, all_appointments, remote_unique. rewrite Hdocs.
    split; constructor.
Qed.

(** C4 as stated fails: two bookings of one slot, the second with its
    conflict query answered 500, leave two documents for the slot. *)
Lemma double_booking_not_unique :
  ~ (local_unique (run_calls double_booking empty_world)
     /\ remote_unique (run_calls double_booking empty_world)).
Proof.
  intros [_ H]. unfold remote_unique in H. vm_compute in H.
  inversion H as [ | x l Hnin _ ]. apply Hnin. left. reflexivity.
Qed.

(** ** The doctor directory *)

(** C7.  [get_doctors] takes no input, returns the same table in every
    world and leaves the world as it is; no sequence of calls of the tools
    changes what it returns; the table is not empty and maps the two doctors
    to their records. *)
Theorem get_doctors_constant (cs : list call) (w : World) :
  get_doctors w = (Returned doctors_table, w)
  /\ fst (get_doctors (run_calls cs w)) = fst (get_doctors w)
  /\ doctors_table <> []
  /\ map fst doctors_table = ["Dr. Khan"; "Dr. Ahmed"].
Proof.
  repeat split. discriminate.
Qed.

(** * Further properties of the tools *)

(** ** [save_appointment]: requests, exceptions and the store *)

(** The whole of a [save_appointment] call, by what comes back for the
    conflict query. *)
Lemma save_appointment_unfold env p e d dt t w :
  save_appointment env p e d dt t w
  = let w1 := log_request (QueryRequest d dt t) w in
    let after (check : response) :=
      match conflict_found check with
      | Raised ex => (Raised ex, w1)
      | Returned true => (Returned SlotAlreadyBooked_remote, w1)
      | Returned false =>
          let doc := pending_doc p e d dt t in
          let w2 := log_request (MutateRequest doc) w1 in
          match on_mutate env with
          | Served => (Returned SinkSaved, set_docs (sanity_docs w ++ [doc]) w2)
          | Answers r =>
              (Returned (if (status_code r =? 200)%Z then SinkSaved
                         else SinkWriteFailed), w2)
          | Unreachable msg => (throw RequestException msg, w2)
          end
      end in
    match on_query env with
    | Served => after (fst (serve (QueryRequest d dt t) w))
    | Answers r => after r
    | Unreachable msg => (throw RequestException msg, w1)
    end.
Proof.
  cbv zeta.
  destruct (on_query env) as [ | r | msg ] eqn:Eq.
  - assert (Hans : answer (on_query env) (QueryRequest d dt t) w
                   = Some (fst (serve (QueryRequest d dt t) w)))
      by (rewrite Eq; reflexivity).
    destruct (conflict_found (fst (serve (QueryRequest d dt t) w)))
      as [[ | ] | ex] eqn:Hc.
    + apply (save_appointment_booked env p e d dt t w _ Hans Hc).
    + apply (save_appointment_free env p e d dt t w _ Hans Hc).
    + unfold save_appointment, bind, requests_post, lift, ret. rewrite Eq.
      rewrite serve_query_logged. cbv beta iota. rewrite Hc. reflexivity.
  - assert (Hans : answer (on_query env) (QueryRequest d dt t) w = Some r)
      by (rewrite Eq; reflexivity).
    destruct (conflict_found r) as [[ | ] | ex] eqn:Hc.
    + apply (save_appointment_booked env p e d dt t w _ Hans Hc).
    + apply (save_appointment_free env p e d dt t w _ Hans Hc).
    + unfold save_appointment, bind, requests_post, lift, ret. rewrite Eq.
      cbv beta iota. rewrite Hc. reflexivity.
  - unfold save_appointment, bind, requests_post. rewrite Eq. reflexivity.
Qed.

(** Splits a [save_appointment] call into its cases. *)
Ltac save_cases env :=
  rewrite save_appointment_unfold; cbv zeta;
  destruct (on_query env) as [ | ?r | ?msg ];
  [ match goal with
    | |- context [conflict_found ?c] =>
        destruct (conflict_found c) as [[ | ] | ?ex]
    end
  | match goal with
    | |- context [conflict_found ?c] =>
        destruct (conflict_found c) as [[ | ] | ?ex]
    end
  | ].

(** X1.  Whatever the remote store replies, one [save_appointment] call
    sends the conflict query first and after it at most one request, the
    create of the pending document built from its arguments; the stored
    documents stay as they were, except that this one document may be added
    at the end, and only when the create was sent. *)
Theorem save_appointment_requests env p e d dt t w :
  let w' := snd (save_appointment env p e d dt t w) in
  (http_log w' = http_log w ++ [QueryRequest d dt t]
   /\ sanity_docs w' = sanity_docs w)
  \/ (http_log w' = http_log w ++ [QueryRequest d dt t;
                                   MutateRequest (pending_doc p e d dt t)]
      /\ (sanity_docs w' = sanity_docs w
          \/ sanity_docs w' = sanity_docs w ++ [pending_doc p e d dt t])).
Proof.
  cbv zeta. save_cases env; simpl; auto;
    right; destruct (on_mutate env); simpl; rewrite <- app_assoc; auto.
Qed.

Lemma save_appointment_answered env p e d dt t w check :
  answer (on_query env) (QueryRequest d dt t) w = Some check ->
  save_appointment env p e d dt t w
  = let w1 := log_request (QueryRequest d dt t) w in
    match conflict_found check with
    | Raised ex => (Raised ex, w1)
    | Returned true => (Returned SlotAlreadyBooked_remote, w1)
    | Returned false =>
        let doc := pending_doc p e d dt t in
        let w2 := log_request (MutateRequest doc) w1 in
        match on_mutate env with
        | Served => (Returned SinkSaved, set_docs (sanity_docs w ++ [doc]) w2)
        | Answers r =>
            (Returned (if (status_code r =? 200)%Z then SinkSaved
                       else SinkWriteFailed), w2)
        | Unreachable msg => (throw RequestException msg, w2)
        end
    end.
Proof.
  intros Hans. rewrite save_appointment_unfold. cbv zeta.
  destruct (on_query env) as [ | r | msg ]; cbn [answer] in Hans;
    [ replace (fst (serve (QueryRequest d dt t) w)) with check by congruence
    | replace r with check by congruence
    | discriminate ]; reflexivity.
Qed.

(** X3.  When the answer to the conflict query has status 200 and a body
    the decoder rejects, [save_appointment] raises the decoder's error; when
    the body decodes to something other than a dict, it raises the
    [AttributeError] of the missing [get]; in both cases only the query has
    been sent. *)
Theorem save_appointment_undecodable_answer env p e d dt t w check :
  answer (on_query env) (QueryRequest d dt t) w = Some check ->
  status_code check = 200%Z ->
  (forall why, body check = Unparseable why ->
     save_appointment env p e d dt t w
     = (Raised {| exn_cls := JSONDecodeError; exn_str := why |},
        log_request (QueryRequest d dt t) w))
  /\ (forall j, body check = Parses j -> is_dict j = false ->
        save_appointment env p e d dt t w
        = (Raised {| exn_cls := AttributeError;
                     exn_str := ("'" ++ type_name j
                                   ++ "' object has no attribute 'get'")%string |},
           log_request (QueryRequest d dt t) w)).
Proof.
  intros Hans Hst. split.
  - intros why Hb. rewrite (save_appointment_answered env p e d dt t w check Hans).
    cbv zeta. unfold conflict_found, response_json. rewrite Hst, Hb. reflexivity.
  - intros j Hb Hj. rewrite (save_appointment_answered env p e d dt t w check Hans).
    cbv zeta. unfold conflict_found, response_json. rewrite Hst, Hb. simpl.
    destruct j; try discriminate; reflexivity.
Qed.

(** X2.  [save_appointment] has no handler, and it raises in exactly three
    situations: the conflict query gets no response; the answer to the query
    has status 200 and a body that is not JSON or not a dict; no conflict is
    found and the create gets no response. *)
Theorem save_appointment_raises_iff env p e d dt t w :
  (exists ex, fst (save_appointment env p e d dt t w) = Raised ex)
  <-> ((exists msg, on_query env = Unreachable msg)
       \/ (exists check,
             answer (on_query env) (QueryRequest d dt t) w = Some check
             /\ status_code check = 200%Z
             /\ match body check with
                | Unparseable _ => True
                | Parses j => is_dict j = false
                end)
       \/ (exists check msg,
             answer (on_query env) (QueryRequest d dt t) w = Some check
             /\ conflict_found check = Returned false
             /\ on_mutate env = Unreachable msg)).
Proof.
  split.
  - destruct (answer (on_query env) (QueryRequest d dt t) w) as [check | ] eqn:Hans.
    + rewrite (save_appointment_answered env p e d dt t w check Hans). cbv zeta.
      destruct (conflict_found check) as [[ | ] | ex0] eqn:Hc.
      * intros [ex H]; discriminate H.
      * destruct (on_mutate env) as [ | r | msg ] eqn:Hm;
          intros [ex H]; try discriminate H.
        right; right. exists check, msg. auto.
      * intros _. right; left. exists check. split; [ reflexivity | ].
        unfold conflict_found, response_json in Hc.
        destruct (status_code check =? 200)%Z eqn:E; [ | discriminate ].
        apply Z.eqb_eq in E. split; [ exact E | ].
        destruct (body check) as [why | j]; [ exact I | ].
        destruct j; try reflexivity. discriminate.
    + intros _. left.
      destruct (on_query env) as [ | r | msg ]; cbn [answer] in Hans;
        try discriminate Hans. eauto.
  - intros [[msg Hq] | [[check [Hans [Hst Hb]]] | [check [msg [Hans [Hc Hm]]]]]].
    + rewrite save_appointment_unfold. cbv zeta. rewrite Hq.
      unfold throw. simpl. eauto.
    + rewrite (save_appointment_answered env p e d dt t w check Hans). cbv zeta.
      unfold conflict_found, response_json, get_method, throw. rewrite Hst. simpl.
      destruct (body check) as [why | j]; simpl; [ eauto | ].
      destruct j; try discriminate Hb; simpl; eauto.
    + rewrite (save_appointment_answered env p e d dt t w check Hans), Hc, Hm.
      unfold throw. simpl. eauto.
Qed.

(** X4.  When [save_appointment] returns, its text is one of three: already
    booked, saved, or save failed.  The saved text means the create was sent
    and answered with status 200; the already-booked text means only the
    query was sent and the documents are unchanged. *)
Theorem save_appointment_texts env p e d dt t w s :
  fst (save_appointment env p e d dt t w) = Returned s ->
  (s = SlotAlreadyBooked_remote \/ s = SinkSaved \/ s = SinkWriteFailed)
  /\ (s = SinkSaved ->
        reply_status (on_mutate env) = Some 200%Z
        /\ http_log (snd (save_appointment env p e d dt t w))
           = http_log w ++ [QueryRequest d dt t;
                            MutateRequest (pending_doc p e d dt t)])
  /\ (s = SlotAlreadyBooked_remote ->
        sanity_docs (snd (save_appointment env p e d dt t w)) = sanity_docs w
        /\ http_log (snd (save_appointment env p e d dt t w))
           = http_log w ++ [QueryRequest d dt t]).
Proof.
  save_cases env; simpl; try discriminate;
    try (intros H; injection H as <-; repeat split; auto; discriminate).
  all: destruct (on_mutate env) as [ | r' | msg' ]; simpl; try discriminate.
  all: try (intros H; injection H as <-;
            repeat split; auto; try discriminate;
            rewrite <- app_assoc; reflexivity).
  all: destruct (status_code r' =? 200)%Z eqn:E; intros H; injection H as <-;
    [ apply Z.eqb_eq in E; rewrite E;
      repeat split; auto; try discriminate; rewrite <- app_assoc; reflexivity
    | repeat split; auto; discriminate ].
Qed.

(** A served create leaves the slot booked. *)
Lemma remotely_booked_snoc p e d dt t docs w :
  sanity_docs w = docs ++ [pending_doc p e d dt t] ->
  remotely_booked (d, dt, t) w.
Proof.
  intros H. exists (pending_doc p e d dt t). rewrite H.
  split; [ apply in_or_app; right; left; reflexivity | split; reflexivity ].
Qed.

(** X5.  With both requests processed by the store, the slot is booked
    after [save_appointment] whatever it was before; the call reports saved
    exactly when the slot was free and already booked exactly when it was
    taken. *)
Theorem save_appointment_served_books env p e d dt t w :
  on_query env = Served ->
  on_mutate env = Served ->
  remotely_booked (d, dt, t) (snd (save_appointment env p e d dt t w))
  /\ (fst (save_appointment env p e d dt t w) = Returned SinkSaved
      <-> ~ remotely_booked (d, dt, t) w)
  /\ (fst (save_appointment env p e d dt t w) = Returned SlotAlreadyBooked_remote
      <-> remotely_booked (d, dt, t) w).
Proof.
  intros Hq Hm.
  assert (Hans : answer (on_query env) (QueryRequest d dt t) w
                 = Some (fst (serve (QueryRequest d dt t) w)))
    by (rewrite Hq; reflexivity).
  rewrite (save_appointment_answered env p e d dt t w _ Hans). cbv zeta.
  pose proof (conflict_found_served d dt t w) as Hc.
  pose proof (find_query_matches (d, dt, t) (sanity_docs w)) as Hf.
  destruct (find (query_matches (d, dt, t)) (sanity_docs w)) as [doc | ];
    rewrite Hc.
  - assert (Hb : remotely_booked (d, dt, t) w) by (exists doc; exact Hf).
    simpl. split; [ exact Hb | ].
    split; split; intros H; try discriminate; try contradiction; auto.
  - assert (Hb : ~ remotely_booked (d, dt, t) w).
    { intros [doc [Hin [Hty Hs]]]. exact (Hf doc Hin Hty Hs). }
    rewrite Hm. simpl. split.
    + apply (remotely_booked_snoc p e d dt t (sanity_docs w)). reflexivity.
    + split; split; intros H; try discriminate; try contradiction; auto.
Qed.

(** What one [save_appointment] call does to the documents. *)
Lemma save_appointment_docs env p e d dt t w :
  sanity_docs (snd (save_appointment env p e d dt t w)) = sanity_docs w
  \/ sanity_docs (snd (save_appointment env p e d dt t w))
     = sanity_docs w ++ [pending_doc p e d dt t].
Proof.
  save_cases env; simpl; auto; destruct (on_mutate env); simpl; auto.
Qed.

(** The documents of a world are kept, in order, by every tool call. *)
Lemma run_call_extends_docs c w :
  exists added,
    sanity_docs (run_call c w) = sanity_docs w ++ added
    /\ Forall (fun doc => doc_type doc = "appointment" /\ status doc = "pending") added.
Proof.
  destruct c as [env p e d dt t | | how p d dt t | env p d dt t ]; cbn [run_call].
  - destruct (save_appointment_docs env p e d dt t w) as [H | H]; rewrite H.
    + exists []. rewrite app_nil_r. split; [ reflexivity | constructor ].
    + exists [pending_doc p e d dt t]. split; [ reflexivity | ].
      repeat constructor.
  - exists []. rewrite app_nil_r. split; [ reflexivity | constructor ].
  - exists []. rewrite app_nil_r, send_doctor_request_keeps_docs.
    split; [ reflexivity | constructor ].
  - exists []. rewrite app_nil_r, confirm_patient_keeps_docs.
    split; [ reflexivity | constructor ].
Qed.

Lemma run_calls_keep_booked cs : forall w s,
  remotely_booked s w -> remotely_booked s (run_calls cs w).
Proof.
  induction cs as [ | c cs IH ]; intros w s Hb; [ exact Hb | ].
  cbn [run_calls fold_left]. apply IH.
  destruct Hb as [doc [Hin Hrest]].
  destruct (run_call_extends_docs c w) as [added [H _]].
  exists doc. rewrite H. split; [ apply in_or_app; left; exact Hin | exact Hrest ].
Qed.

Lemma save_appointment_when_booked env p e d dt t w :
  on_query env = Served ->
  remotely_booked (d, dt, t) w ->
  save_appointment env p e d dt t w
  = (Returned SlotAlreadyBooked_remote, log_request (QueryRequest d dt t) w).
Proof.
  intros Hq Hb.
  apply (save_appointment_booked env p e d dt t w
           (fst (serve (QueryRequest d dt t) w))).
  - rewrite Hq. reflexivity.
  - apply conflict_found_booked. exact Hb.
Qed.

(** X6.  No sequence of tool calls removes, reorders or changes a stored
    document: the documents afterwards are the documents before followed by
    the added ones, and every added document is an appointment with status
    pending. *)
Theorem run_calls_extends_docs cs : forall w,
  exists added,
    sanity_docs (run_calls cs w) = sanity_docs w ++ added
    /\ Forall (fun doc => doc_type doc = "appointment" /\ status doc = "pending") added.
Proof.
  induction cs as [ | c cs IH ]; intros w.
  - exists []. rewrite app_nil_r. split; [ reflexivity | constructor ].
  - cbn [run_calls fold_left].
    destruct (run_call_extends_docs c w) as [a1 [H1 F1]].
    destruct (IH (run_call c w)) as [a2 [H2 F2]].
    exists (a1 ++ a2). split.
    + unfold run_calls in H2. rewrite H2, H1, app_assoc. reflexivity.
    + apply Forall_app. split; assumption.
Qed.

(** X7.  A remote booking is never undone: once the store holds an
    appointment for a slot, it still does after any sequence of tool calls,
    and a [save_appointment] for that slot whose query the store evaluates
    is then rejected and adds nothing. *)
Theorem remote_booking_is_permanent cs w env p e d dt t :
  remotely_booked (d, dt, t) w ->
  on_query env = Served ->
  remotely_booked (d, dt, t) (run_calls cs w)
  /\ fst (save_appointment env p e d dt t (run_calls cs w))
     = Returned SlotAlreadyBooked_remote
  /\ sanity_docs (snd (save_appointment env p e d dt t (run_calls cs w)))
     = sanity_docs (run_calls cs w).
Proof.
  intros Hb Hq.
  pose proof (run_calls_keep_booked cs w (d, dt, t) Hb) as Hb'.
  split; [ exact Hb' | ].
  rewrite (save_appointment_when_booked env p e d dt t _ Hq Hb').
  split; reflexivity.
Qed.

(** X8.  A [save_appointment] call for one slot does not change whether any
    other slot is booked in the remote store, whatever the store replies. *)
Theorem save_appointment_other_slots env p e d dt t w s :
  s <> (d, dt, t) ->
  remotely_booked s (snd (save_appointment env p e d dt t w))
  <-> remotely_booked s w.
Proof.
  intros Hne.
  destruct (save_appointment_docs env p e d dt t w) as [H | H];
    unfold remotely_booked; rewrite H; try reflexivity.
  split; intros [doc [Hin Hrest]]; exists doc.
  - apply in_app_or in Hin. destruct Hin as [Hin | [<- | []]]; [ auto | ].
    exfalso. apply Hne. symmetry. exact (proj2 Hrest).
  - split; [ apply in_or_app; left; exact Hin | exact Hrest ].
Qed.

(** ** [confirm_patient]: every state of the file *)

(** The whole of a [confirm_patient] call when the scan has a list to run
    over: the stored list, or the empty list of an absent file. *)
Lemma confirm_patient_scanned env p d dt t w items :
  listed w items ->
  appointments_file w = None \/ read_refused env = None ->
  confirm_patient env p d dt t w
  = match scan items d dt t with
    | Raised ex => (Returned (confirm_failure (exn_str ex)), after_read w)
    | Returned true => (Returned SlotAlreadyBooked_local, after_read w)
    | Returned false =>
        let w2 := log_fs EvOpenWrite (after_read w) in
        match on_write env with
        | Written =>
            (Returned (confirmation (mk_booking p d dt t)),
             log_fs EvDump
               (set_file (Some (Parses (JList (items ++ [record_json p d dt t])))) w2))
        | OpenRefused msg => (Returned (confirm_failure msg), w2)
        | DumpFails msg why =>
            (Returned (confirm_failure msg),
             log_fs EvDump (set_file (Some (Unparseable why)) w2))
        end
    end.
Proof.
  intros Hl Hread. pose proof (catchable_scan items d dt t) as Hc.
  unfold after_read.
  destruct Hl as [[Hfile ->] | Hfile].
  - run_confirm_patient. rewrite Hfile. simpl.
    destruct (on_write env); reflexivity.
  - destruct Hread as [Hread | Hread]; [ congruence | ].
    run_confirm_patient. rewrite Hfile, Hread. simpl. rewrite Hfile. simpl.
    destruct (scan items d dt t) as [[ | ] | ex]; simpl in *.
    + reflexivity.
    + destruct (on_write env); reflexivity.
    + rewrite Hc. reflexivity.
Qed.

Lemma confirm_patient_refused env p d dt t w c msg :
  appointments_file w = Some c ->
  read_refused env = Some msg ->
  confirm_patient env p d dt t w = (Returned (confirm_failure msg), after_read w).
Proof.
  intros Hfile Hread. unfold after_read. run_confirm_patient.
  rewrite Hfile, Hread. reflexivity.
Qed.

Lemma confirm_patient_rejected_text env p d dt t w why :
  appointments_file w = Some (Unparseable why) ->
  read_refused env = None ->
  confirm_patient env p d dt t w = (Returned (confirm_failure why), after_read w).
Proof.
  intros Hfile Hread. unfold after_read. run_confirm_patient.
  rewrite Hfile, Hread. simpl. rewrite Hfile. reflexivity.
Qed.

Lemma confirm_patient_not_list env p d dt t w v :
  appointments_file w = Some (Parses v) ->
  is_list v = false ->
  read_refused env = None ->
  exists msg,
    confirm_patient env p d dt t w = (Returned (confirm_failure msg), after_read w).
Proof.
  intros Hfile Hv Hread. unfold after_read. run_confirm_patient.
  rewrite Hfile, Hread. simpl. rewrite Hfile.
  destruct v as [ | b | z | f | s | items | fields ]; try discriminate Hv;
    simpl; try (eexists; reflexivity).
  - destruct s as [ | c s ]; simpl; eexists; reflexivity.
  - destruct fields as [ | [k v] fields ]; simpl; eexists; reflexivity.
Qed.

Lemma after_read_file w : appointments_file (after_read w) = appointments_file w.
Proof.
  unfold after_read. destruct (appointments_file w) eqn:E; simpl; congruence.
Qed.

(** Every [confirm_patient] call is of one of two kinds: the scan ran over a
    list, or the call stopped at the read with a failure text. *)
Lemma confirm_patient_cases env p d dt t w :
  (exists items,
      listed w items
      /\ (appointments_file w = None \/ read_refused env = None))
  \/ (exists msg,
        confirm_patient env p d dt t w
        = (Returned (confirm_failure msg), after_read w)).
Proof.
  destruct (appointments_file w) as [[why | v] | ] eqn:Hfile.
  - right. destruct (read_refused env) as [msg | ] eqn:Hread.
    + exists msg. apply (confirm_patient_refused env p d dt t w _ msg Hfile Hread).
    + exists why. apply (confirm_patient_rejected_text env p d dt t w why Hfile Hread).
  - destruct (read_refused env) as [msg | ] eqn:Hread.
    + right. exists msg.
      apply (confirm_patient_refused env p d dt t w _ msg Hfile Hread).
    + destruct (is_list v) eqn:Hv.
      * destruct v; try discriminate Hv.
        left. exists items. split; [ right; exact Hfile | right; reflexivity ].
      * right. apply (confirm_patient_not_list env p d dt t w v Hfile Hv Hread).
  - left. exists []. split; left; auto.
Qed.

Lemma listed_unique w items1 items2 :
  listed w items1 -> listed w items2 -> items1 = items2.
Proof.
  intros [[H1 ->] | H1] [[H2 ->] | H2]; congruence.
Qed.

Lemma listed_stored w items : listed w items -> stored_items w = items.
Proof.
  unfold stored_items. intros [[H ->] | H]; rewrite H; reflexivity.
Qed.

Lemma Returned_inj {A} (a b : A) : Returned a = Returned b -> a = b.
Proof. intros H. injection H as H. exact H. Qed.

Lemma confirmation_not_booked b : confirmation b <> SlotAlreadyBooked_local.
Proof. unfold confirmation, SlotAlreadyBooked_local. simpl. discriminate. Qed.

Lemma confirmation_not_failure b msg : confirmation b <> confirm_failure msg.
Proof. unfold confirmation, confirm_failure. simpl. discriminate. Qed.

Lemma booked_not_failure msg : SlotAlreadyBooked_local <> confirm_failure msg.
Proof. unfold SlotAlreadyBooked_local, confirm_failure. simpl. discriminate. Qed.

(** X9.  Every [confirm_patient] call ends in one of three ways: it returns
    the confirmation and the file holds the list it scanned with the new
    record at the end; it returns already booked and the file is as before;
    or it returns a failure text and the file is as before, unless the dump
    itself failed and left the file unparseable. *)
Theorem confirm_patient_outcomes env p d dt t w :
  let r := fst (confirm_patient env p d dt t w) in
  let w' := snd (confirm_patient env p d dt t w) in
  (r = Returned (confirmation (mk_booking p d dt t))
   /\ exists items,
        listed w items
        /\ appointments_file w'
           = Some (Parses (JList (items ++ [record_json p d dt t]))))
  \/ (r = Returned SlotAlreadyBooked_local
      /\ appointments_file w' = appointments_file w)
  \/ (exists msg,
        r = Returned (confirm_failure msg)
        /\ (appointments_file w' = appointments_file w
            \/ exists m why,
                 on_write env = DumpFails m why
                 /\ appointments_file w' = Some (Unparseable why))).
Proof.
  cbv zeta.
  destruct (confirm_patient_cases env p d dt t w) as [[items [Hl Hr]] | [msg H]].
  - rewrite (confirm_patient_scanned env p d dt t w items Hl Hr).
    destruct (scan items d dt t) as [[ | ] | ex]; cbv zeta.
    + right; left. split; [ reflexivity | apply after_read_file ].
    + destruct (on_write env) as [ | msg | msg why ] eqn:Hw; simpl.
      * left. split; [ reflexivity | ]. exists items. auto.
      * right; right. exists msg. split; [ reflexivity | ].
        left. apply after_read_file.
      * right; right. exists msg. split; [ reflexivity | ].
        right. exists msg, why. auto.
    + right; right. exists (exn_str ex). split; [ reflexivity | ].
      left. apply after_read_file.
  - rewrite H. right; right. exists msg. split; [ reflexivity | ].
    left. apply after_read_file.
Qed.

(** What a confirmation tells about the call. *)
Lemma confirm_patient_confirmed_inv env p d dt t w :
  fst (confirm_patient env p d dt t w) = Returned (confirmation (mk_booking p d dt t)) ->
  exists items,
    listed w items
    /\ scan items d dt t = Returned false
    /\ snd (confirm_patient env p d dt t w)
       = log_fs EvDump
           (set_file (Some (Parses (JList (items ++ [record_json p d dt t]))))
              (log_fs EvOpenWrite (after_read w))).
Proof.
  destruct (confirm_patient_cases env p d dt t w) as [[items [Hl Hr]] | [msg H]].
  - rewrite (confirm_patient_scanned env p d dt t w items Hl Hr).
    destruct (scan items d dt t) as [[ | ] | ex] eqn:Hs; cbv zeta.
    + intros H. apply Returned_inj in H. symmetry in H.
      exfalso. exact (confirmation_not_booked _ H).
    + destruct (on_write env) as [ | msg | msg why ]; simpl; intros H.
      * exists items. repeat split; auto.
      * apply Returned_inj in H. symmetry in H.
        exfalso. exact (confirmation_not_failure _ _ H).
      * apply Returned_inj in H. symmetry in H.
        exfalso. exact (confirmation_not_failure _ _ H).
    + intros H. apply Returned_inj in H. symmetry in H.
      exfalso. exact (confirmation_not_failure _ _ H).
  - rewrite H. simpl. intros H'. apply Returned_inj in H'. symmetry in H'.
    exfalso. exact (confirmation_not_failure _ _ H').
Qed.

(** What one [confirm_patient] call does to the file. *)
Lemma confirm_patient_file_after env p d dt t w :
  appointments_file (snd (confirm_patient env p d dt t w)) = appointments_file w
  \/ (exists items,
        listed w items
        /\ fst (confirm_patient env p d dt t w)
           = Returned (confirmation (mk_booking p d dt t))
        /\ appointments_file (snd (confirm_patient env p d dt t w))
           = Some (Parses (JList (items ++ [record_json p d dt t]))))
  \/ (exists m why,
        on_write env = DumpFails m why
        /\ appointments_file (snd (confirm_patient env p d dt t w))
           = Some (Unparseable why)).
Proof.
  destruct (confirm_patient_cases env p d dt t w) as [[items [Hl Hr]] | [msg H]].
  - rewrite (confirm_patient_scanned env p d dt t w items Hl Hr).
    destruct (scan items d dt t) as [[ | ] | ex]; cbv zeta.
    + left. apply after_read_file.
    + destruct (on_write env) as [ | msg | msg why ] eqn:Hw; simpl.
      * right; left. exists items. auto.
      * left. apply after_read_file.
      * right; right. exists msg, why. auto.
    + left. apply after_read_file.
  - rewrite H. left. apply after_read_file.
Qed.

(** X10.  [confirm_patient] returns the confirmation exactly when it has
    written the scanned list with the new record appended: a confirmation is
    never returned without the record in the file, and the record is never
    written without the confirmation. *)
Theorem confirm_patient_confirms_iff_appended env p d dt t w :
  fst (confirm_patient env p d dt t w) = Returned (confirmation (mk_booking p d dt t))
  <-> exists items,
        listed w items
        /\ appointments_file (snd (confirm_patient env p d dt t w))
           = Some (Parses (JList (items ++ [record_json p d dt t]))).
Proof.
  split.
  - intros H. destruct (confirm_patient_confirmed_inv env p d dt t w H)
      as [items [Hl [_ Hw]]].
    exists items. split; [ exact Hl | ]. rewrite Hw. reflexivity.
  - intros [items [Hl Hw]].
    destruct (confirm_patient_file_after env p d dt t w)
      as [H | [[items' [_ [H _]]] | [m [why [_ H]]]]].
    + exfalso. rewrite Hw in H.
      destruct Hl as [[Hn _] | Hs]; rewrite ?Hn, ?Hs in H; [ discriminate | ].
      injection H as H. apply (f_equal (@length json)) in H.
      rewrite length_app in H. simpl in H. lia.
    + exact H.
    + rewrite Hw in H. discriminate.
Qed.

Lemma after_read_log w c :
  appointments_file w = Some c ->
  fs_log (after_read w) = fs_log w ++ [EvExists; EvOpenRead].
Proof.
  intros H. unfold after_read. rewrite H. simpl. rewrite <- app_assoc. reflexivity.
Qed.

(** X11.  When the file holds JSON that is not a list (a dict, a string, a
    number, [null]), [confirm_patient] returns a failure text, leaves the
    file as it is and opens nothing for writing. *)
Theorem confirm_patient_not_a_list env p d dt t w v :
  appointments_file w = Some (Parses v) ->
  is_list v = false ->
  exists msg,
    fst (confirm_patient env p d dt t w) = Returned (confirm_failure msg)
    /\ appointments_file (snd (confirm_patient env p d dt t w)) = Some (Parses v)
    /\ fs_log (snd (confirm_patient env p d dt t w))
       = fs_log w ++ [EvExists; EvOpenRead].
Proof.
  intros Hfile Hv.
  assert (H : exists msg, confirm_patient env p d dt t w
                          = (Returned (confirm_failure msg), after_read w)).
  { destruct (read_refused env) as [msg | ] eqn:Hread.
    - exists msg. apply (confirm_patient_refused env p d dt t w _ msg Hfile Hread).
    - apply (confirm_patient_not_list env p d dt t w v Hfile Hv Hread). }
  destruct H as [msg H]. exists msg. rewrite H. simpl.
  rewrite after_read_file, (after_read_log w _ Hfile). auto.
Qed.

Lemma run_call_keeps_unparseable c w why :
  appointments_file w = Some (Unparseable why) ->
  appointments_file (run_call c w) = Some (Unparseable why).
Proof.
  intros H.
  destruct c as [env p e d dt t | | how p d dt t | env p d dt t ]; cbn [run_call].
  - rewrite save_appointment_keeps_file. exact H.
  - exact H.
  - rewrite send_doctor_request_keeps_file. exact H.
  - apply confirm_patient_unparseable. exact H.
Qed.

(** X12.  A file the decoder rejects stays so: no sequence of tool calls
    repairs it, and every later [confirm_patient] returns a failure text,
    with the decoder's message when the file can be read. *)
Theorem unparseable_file_is_permanent cs : forall w why env p d dt t,
  appointments_file w = Some (Unparseable why) ->
  appointments_file (run_calls cs w) = Some (Unparseable why)
  /\ exists msg,
       fst (confirm_patient env p d dt t (run_calls cs w))
       = Returned (confirm_failure msg)
       /\ (read_refused env = None -> msg = why).
Proof.
  induction cs as [ | c cs IH ]; intros w why env p d dt t H.
  - cbn [run_calls fold_left]. split; [ exact H | ].
    destruct (read_refused env) as [msg | ] eqn:Hread.
    + exists msg. rewrite (confirm_patient_refused env p d dt t w _ msg H Hread).
      split; [ reflexivity | discriminate ].
    + exists why. rewrite (confirm_patient_rejected_text env p d dt t w why H Hread).
      split; reflexivity.
  - cbn [run_calls fold_left].
    apply (IH (run_call c w) why env p d dt t).
    apply run_call_keeps_unparseable. exact H.
Qed.

(** Records the scan passes over do not change what it finds after them. *)
Lemma scan_passed_over pre rest d dt t :
  forallb (passed_over (d, dt, t)) pre = true ->
  scan (pre ++ rest) d dt t = scan rest d dt t.
Proof.
  induction pre as [ | a pre IH ]; [ reflexivity | ].
  cbn [forallb app scan passed_over]. intros H. apply andb_true_iff in H.
  destruct H as [Ha Hpre].
  destruct (same_slot a d dt t) as [[ | ] | ex]; try discriminate Ha.
  cbn [rbind]. exact (IH Hpre).
Qed.

Lemma scan_false_passed_over items d dt t :
  scan items d dt t = Returned false ->
  forallb (passed_over (d, dt, t)) items = true.
Proof.
  induction items as [ | a items IH ]; [ reflexivity | ].
  cbn [forallb scan passed_over].
  destruct (same_slot a d dt t) as [[ | ] | ex]; cbn [rbind]; try discriminate.
  intros H. exact (IH H).
Qed.

Lemma scan_own_record p d dt t rest :
  scan (record_json p d dt t :: rest) d dt t = Returned true.
Proof.
  cbn [scan]. unfold same_slot, record_json. simpl.
  rewrite !String.eqb_refl. reflexivity.
Qed.

(** X13.  After a [confirm_patient] call returned the confirmation, a next
    call for the same slot that can read the file is rejected as already
    booked, whoever the patient, and leaves the file as the first call wrote
    it. *)
Theorem confirm_patient_then_duplicate env1 env2 p1 p2 d dt t w :
  fst (confirm_patient env1 p1 d dt t w)
  = Returned (confirmation (mk_booking p1 d dt t)) ->
  read_refused env2 = None ->
  let w1 := snd (confirm_patient env1 p1 d dt t w) in
  fst (confirm_patient env2 p2 d dt t w1) = Returned SlotAlreadyBooked_local
  /\ appointments_file (snd (confirm_patient env2 p2 d dt t w1))
     = appointments_file w1.
Proof.
  intros H1 Hread. cbv zeta.
  destruct (confirm_patient_confirmed_inv env1 p1 d dt t w H1)
    as [items [Hl [Hs Hw]]].
  rewrite Hw.
  set (w1 := log_fs EvDump _).
  assert (Hl1 : listed w1 (items ++ [record_json p1 d dt t]))
    by (right; reflexivity).
  rewrite (confirm_patient_scanned env2 p2 d dt t w1 _ Hl1 (or_intror Hread)).
  rewrite (scan_passed_over items _ d dt t (scan_false_passed_over _ _ _ _ Hs)).
  rewrite scan_own_record. simpl. split; reflexivity.
Qed.

Lemma run_call_extends_file c w :
  dump_completes c = true ->
  exists added, stored_items (run_call c w) = stored_items w ++ added.
Proof.
  intros Hc.
  assert (Hsame : forall w', appointments_file w' = appointments_file w ->
                             exists added, stored_items w' = stored_items w ++ added).
  { intros w' H. exists []. unfold stored_items. rewrite H, app_nil_r. reflexivity. }
  destruct c as [env p e d dt t | | how p d dt t | env p d dt t ]; cbn [run_call].
  - apply Hsame, save_appointment_keeps_file.
  - apply Hsame. reflexivity.
  - apply Hsame, send_doctor_request_keeps_file.
  - destruct (confirm_patient_file_after env p d dt t w)
      as [H | [[items [Hl [_ Hw]]] | [m [why [Hd _]]]]].
    + apply Hsame, H.
    + exists [record_json p d dt t].
      rewrite (listed_stored w items Hl). unfold stored_items. rewrite Hw. reflexivity.
    + simpl in Hc. rewrite Hd in Hc. discriminate.
Qed.

(** X14.  As long as no dump fails part-way, the local log only grows at its
    end: after any sequence of tool calls the file holds the records it held
    before, in order, followed by the added ones. *)
Theorem local_log_is_append_only cs : forall w,
  forallb dump_completes cs = true ->
  exists added, stored_items (run_calls cs w) = stored_items w ++ added.
Proof.
  induction cs as [ | c cs IH ]; intros w Hc.
  - exists []. rewrite app_nil_r. reflexivity.
  - cbn [forallb] in Hc. apply andb_true_iff in Hc. destruct Hc as [Hc Hcs].
    cbn [run_calls fold_left].
    destruct (run_call_extends_file c w Hc) as [a1 H1].
    destruct (IH (run_call c w) Hcs) as [a2 H2].
    exists (a1 ++ a2). unfold run_calls in H2. rewrite H2, H1, app_assoc. reflexivity.
Qed.

Lemma other_doctor_passed_over d dt t a :
  other_doctor d a = true -> passed_over (d, dt, t) a = true.
Proof.
  destruct a as [ | | | | | | fields ]; try discriminate.
  unfold other_doctor, passed_over, same_slot, subscript.
  destruct (dict_lookup fields "doctor") as [v | ]; [ | discriminate ].
  cbn [rbind]. destruct (eq_str v d); [ discriminate | reflexivity ].
Qed.

(** X15.  The scan reads [date] and [time] only of records of the requested
    doctor: when every stored record is a dict whose [doctor] value differs
    from the requested one, whatever else it holds or lacks, a call that can
    read and write confirms and appends. *)
Theorem confirm_patient_skips_other_doctors env p d dt t w items :
  appointments_file w = Some (Parses (JList items)) ->
  forallb (other_doctor d) items = true ->
  read_refused env = None ->
  on_write env = Written ->
  fst (confirm_patient env p d dt t w) = Returned (confirmation (mk_booking p d dt t))
  /\ appointments_file (snd (confirm_patient env p d dt t w))
     = Some (Parses (JList (items ++ [record_json p d dt t]))).
Proof.
  intros Hfile Hother Hread Hw.
  rewrite (confirm_patient_scanned env p d dt t w items
             (or_intror Hfile) (or_intror Hread)).
  assert (Hp : forallb (passed_over (d, dt, t)) items = true).
  { rewrite forallb_forall in *. intros a Ha.
    apply other_doctor_passed_over. exact (Hother a Ha). }
  pose proof (scan_passed_over items [] d dt t Hp) as Hs.
  rewrite app_nil_r in Hs. rewrite Hs. cbn [scan]. cbv zeta. rewrite Hw.
  split; reflexivity.
Qed.

(** X16.  A stored record without the [doctor] key stops the scan when it
    is reached: the call returns the failure text with the [KeyError]'s
    text, the quoted key, leaves the file as it is and opens nothing for
    writing, even when a later record holds the slot or the slot is free. *)
Theorem confirm_patient_missing_doctor_key env p d dt t w pre bad rest :
  appointments_file w = Some (Parses (JList (pre ++ bad :: rest))) ->
  forallb (passed_over (d, dt, t)) pre = true ->
  lacks_doctor bad = true ->
  read_refused env = None ->
  fst (confirm_patient env p d dt t w) = Returned (confirm_failure "'doctor'")
  /\ appointments_file (snd (confirm_patient env p d dt t w)) = appointments_file w
  /\ fs_log (snd (confirm_patient env p d dt t w)) = fs_log w ++ [EvExists; EvOpenRead].
Proof.
  intros Hfile Hpre Hbad Hread.
  rewrite (confirm_patient_scanned env p d dt t w _
             (or_intror Hfile) (or_intror Hread)).
  rewrite (scan_passed_over pre _ d dt t Hpre).
  destruct bad as [ | | | | | | fields ]; try discriminate Hbad.
  cbn [scan]. unfold same_slot, subscript.
  unfold lacks_doctor in Hbad.
  destruct (dict_lookup fields "doctor"); [ discriminate | ].
  simpl. rewrite after_read_file, (after_read_log w _ Hfile). auto.
Qed.

(** ** Each tool keeps to its own store *)

Lemma reads_only_ret {A B} (f : World -> B) (a : A) : reads_only f (ret a).
Proof. intros w1 w2 H. split; [ reflexivity | exact H ]. Qed.

Lemma reads_only_lift {A B} (f : World -> B) (r : result A) : reads_only f (lift r).
Proof. intros w1 w2 H. split; [ reflexivity | exact H ]. Qed.

Lemma reads_only_bind {A A' B} (f : World -> B) (c : M A) (k : A -> M A') :
  reads_only f c -> (forall a, reads_only f (k a)) -> reads_only f (bind c k).
Proof.
  intros Hc Hk w1 w2 H. unfold bind. destruct (Hc w1 w2 H) as [Hr Hf].
  destruct (c w1) as [[a1 | e1] v1], (c w2) as [[a2 | e2] v2]; simpl in *;
    try discriminate Hr.
  - injection Hr as <-. apply Hk. exact Hf.
  - injection Hr as <-. split; [ reflexivity | exact Hf ].
Qed.

Lemma reads_only_try {A B} (f : World -> B) (c : M A) (h : exn -> M A) :
  reads_only f c -> (forall e, reads_only f (h e)) ->
  reads_only f (try_except_Exception c h).
Proof.
  intros Hc Hh w1 w2 H. unfold try_except_Exception.
  destruct (Hc w1 w2 H) as [Hr Hf].
  destruct (c w1) as [[a1 | e1] v1], (c w2) as [[a2 | e2] v2]; simpl in *;
    try discriminate Hr.
  - split; [ exact Hr | exact Hf ].
  - injection Hr as <-.
    destruct (is_Exception (exn_cls e1)); [ apply Hh; exact Hf | ].
    split; [ reflexivity | exact Hf ].
Qed.

Lemma requests_post_reads_docs req how : reads_only sanity_docs (requests_post req how).
Proof.
  intros w1 w2 H. unfold requests_post.
  destruct how as [ | r | msg ]; [ | split; [ reflexivity | exact H ] .. ].
  destruct req; simpl; rewrite H; split; reflexivity.
Qed.

Lemma save_appointment_reads_docs env p e d dt t :
  reads_only sanity_docs (save_appointment env p e d dt t).
Proof.
  unfold save_appointment.
  apply reads_only_bind; [ apply requests_post_reads_docs | intros check ].
  apply reads_only_bind; [ apply reads_only_lift | intros booked ].
  destruct booked; [ apply reads_only_ret | ].
  apply reads_only_bind; [ apply requests_post_reads_docs | intros resp ].
  apply reads_only_ret.
Qed.

Lemma confirm_patient_reads_file env p d dt t :
  reads_only appointments_file (confirm_patient env p d dt t).
Proof.
  unfold confirm_patient, confirm_patient_body.
  apply reads_only_try; [ | intros e; apply reads_only_ret ].
  apply reads_only_bind.
  { intros w1 w2 H. unfold os_path_exists. simpl. rewrite H. split; reflexivity. }
  intros present. apply reads_only_bind.
  { destruct present; [ | apply reads_only_ret ].
    intros w1 w2 H. unfold json_load_open. simpl.
    destruct (read_refused env); [ split; [ reflexivity | exact H ] | ].
    rewrite H.
    destruct (appointments_file w2) as [[why | v] | ] eqn:E; simpl;
      split; try reflexivity; congruence. }
  intros data.
  apply reads_only_bind; [ apply reads_only_lift | intros items ].
  apply reads_only_bind; [ apply reads_only_lift | intros booked ].
  destruct booked; [ apply reads_only_ret | ].
  apply reads_only_bind; [ apply reads_only_lift | intros data' ].
  apply reads_only_bind; [ | intros _; apply reads_only_ret ].
  intros w1 w2 H. unfold open_w_dump.
  destruct (on_write env); simpl; split; reflexivity || exact H.
Qed.

Lemma requests_post_keeps_fs_log req how : preserves fs_log (requests_post req how).
Proof.
  intros w. unfold requests_post.
  destruct how; [ destruct req | | ]; reflexivity.
Qed.

(** X17.  Whatever the webhook does, [send_doctor_request] sends exactly one
    request, the payload of its four arguments, and changes nothing else;
    its text does not depend on the state of either store. *)
Theorem send_doctor_request_single_call how p d dt t w :
  snd (send_doctor_request how p d dt t w)
  = log_request (WebhookRequest p d dt t) w
  /\ forall w2,
       fst (send_doctor_request how p d dt t w2)
       = fst (send_doctor_request how p d dt t w).
Proof.
  unfold send_doctor_request, try_except_Exception, bind, requests_post, ret.
  destruct how as [ | r | msg ]; simpl; split; reflexivity.
Qed.

(** X18.  [save_appointment] never touches the local log: the file and the
    record of file operations are as before, whatever the remote store
    replies. *)
Theorem save_appointment_keeps_local_log env p e d dt t w :
  appointments_file (snd (save_appointment env p e d dt t w)) = appointments_file w
  /\ fs_log (snd (save_appointment env p e d dt t w)) = fs_log w.
Proof.
  split; [ apply save_appointment_keeps_file | ].
  revert w. change (preserves fs_log (save_appointment env p e d dt t)).
  unfold save_appointment.
  apply preserves_bind; [ apply requests_post_keeps_fs_log | intros check ].
  apply preserves_bind; [ apply preserves_lift | intros booked ].
  destruct booked; [ apply preserves_ret | ].
  apply preserves_bind; [ apply requests_post_keeps_fs_log | intros resp ].
  apply preserves_ret.
Qed.

Lemma confirm_patient_keeps_http_log env p d dt t :
  preserves http_log (confirm_patient env p d dt t).
Proof.
  unfold confirm_patient, confirm_patient_body.
  apply preserves_try; [ | intros e; apply preserves_ret ].
  apply preserves_bind; [ intros w; reflexivity | intros present ].
  apply preserves_bind.
  { destruct present; [ | apply preserves_ret ].
    intros w. unfold json_load_open.
    destruct (read_refused env); [ reflexivity | ].
    destruct (appointments_file _) as [[why | v] | ]; reflexivity. }
  intros data.
  apply preserves_bind; [ apply preserves_lift | intros items ].
  apply preserves_bind; [ apply preserves_lift | intros booked ].
  destruct booked; [ apply preserves_ret | ].
  apply preserves_bind; [ apply preserves_lift | intros data' ].
  apply preserves_bind; [ | intros _; apply preserves_ret ].
  intros w. unfold open_w_dump. destruct (on_write env); reflexivity.
Qed.

(** X19.  [confirm_patient] never talks to the remote store: it sends no
    request and the stored documents are as before, in every state of the
    file and of the file system. *)
Theorem confirm_patient_keeps_remote_store env p d dt t w :
  sanity_docs (snd (confirm_patient env p d dt t w)) = sanity_docs w
  /\ http_log (snd (confirm_patient env p d dt t w)) = http_log w.
Proof.
  split; [ apply confirm_patient_keeps_docs | apply confirm_patient_keeps_http_log ].
Qed.

(** X20.  The notification does not influence the other sinks: after
    [send_doctor_request], whatever the webhook did, [save_appointment] and
    [confirm_patient] return what they would have returned without it and
    leave the same stores. *)
Theorem notification_does_not_matter how pn dn dtn tn w :
  let w1 := snd (send_doctor_request how pn dn dtn tn w) in
  (forall env p e d dt t,
      fst (save_appointment env p e d dt t w1) = fst (save_appointment env p e d dt t w)
      /\ stores (snd (save_appointment env p e d dt t w1))
         = stores (snd (save_appointment env p e d dt t w)))
  /\ (forall env p d dt t,
        fst (confirm_patient env p d dt t w1) = fst (confirm_patient env p d dt t w)
        /\ stores (snd (confirm_patient env p d dt t w1))
           = stores (snd (confirm_patient env p d dt t w))).
Proof.
  cbv zeta.
  set (w1 := snd (send_doctor_request how pn dn dtn tn w)).
  assert (Hd : sanity_docs w1 = sanity_docs w)
    by apply send_doctor_request_keeps_docs.
  assert (Hf : appointments_file w1 = appointments_file w)
    by apply send_doctor_request_keeps_file.
  unfold stores. split.
  - intros env p e d dt t.
    destruct (save_appointment_reads_docs env p e d dt t w1 w Hd) as [Hr Hs].
    split; [ exact Hr | ].
    rewrite Hs, !save_appointment_keeps_file, Hf. reflexivity.
  - intros env p d dt t.
    destruct (confirm_patient_reads_file env p d dt t w1 w Hf) as [Hr Hs].
    split; [ exact Hr | ].
    rewrite Hs, !confirm_patient_keeps_docs, Hd. reflexivity.
Qed.

(** X21.  The remote save and the local confirmation do not depend on each
    other: each returns the same text whether it runs before or after the
    other, and both orders leave the same stores. *)
Theorem save_and_confirm_commute envs ps es ds dts ts envc pc dc dtc tc w :
  let ws := snd (save_appointment envs ps es ds dts ts w) in
  let wc := snd (confirm_patient envc pc dc dtc tc w) in
  fst (confirm_patient envc pc dc dtc tc ws) = fst (confirm_patient envc pc dc dtc tc w)
  /\ fst (save_appointment envs ps es ds dts ts wc)
     = fst (save_appointment envs ps es ds dts ts w)
  /\ stores (snd (confirm_patient envc pc dc dtc tc ws))
     = stores (snd (save_appointment envs ps es ds dts ts wc)).
Proof.
  cbv zeta.
  pose proof (save_appointment_keeps_file envs ps es ds dts ts w) as Hfs.
  pose proof (confirm_patient_keeps_docs envc pc dc dtc tc w) as Hdc.
  destruct (confirm_patient_reads_file envc pc dc dtc tc _ w Hfs) as [Hr1 Hs1].
  destruct (save_appointment_reads_docs envs ps es ds dts ts _ w Hdc) as [Hr2 Hs2].
  split; [ exact Hr1 | ]. split; [ exact Hr2 | ].
  unfold stores.
  rewrite confirm_patient_keeps_docs, save_appointment_keeps_file, Hs1, Hs2.
  reflexivity.
Qed.

(** ** A booking made twice *)

(** A call that finds the slot, or cannot scan the list, leaves the file. *)
Lemma confirm_patient_no_write env p d dt t w items :
  appointments_file w = Some (Parses (JList items)) ->
  scan items d dt t <> Returned false ->
  appointments_file (snd (confirm_patient env p d dt t w)) = appointments_file w.
Proof.
  intros Hfile Hs.
  destruct (read_refused env) as [msg | ] eqn:Hread.
  - rewrite (confirm_patient_refused env p d dt t w _ msg Hfile Hread).
    apply after_read_file.
  - rewrite (confirm_patient_scanned env p d dt t w items
               (or_intror Hfile) (or_intror Hread)).
    destruct (scan items d dt t) as [[ | ] | ex];
      [ apply after_read_file | contradiction | apply after_read_file ].
Qed.

Lemma confirm_patient_stops_at_read env p d dt t w c :
  appointments_file w = Some c ->
  match c with
  | Unparseable _ => True
  | Parses v => is_list v = false
  end ->
  appointments_file (snd (confirm_patient env p d dt t w)) = appointments_file w.
Proof.
  intros Hfile Hc.
  destruct (read_refused env) as [msg | ] eqn:Hread.
  - rewrite (confirm_patient_refused env p d dt t w _ msg Hfile Hread).
    apply after_read_file.
  - destruct c as [why | v].
    + rewrite (confirm_patient_rejected_text env p d dt t w why Hfile Hread).
      apply after_read_file.
    + destruct (confirm_patient_not_list env p d dt t w v Hfile Hc Hread) as [msg H].
      rewrite H. apply after_read_file.
Qed.

(** After a call that could read and write, a second call for the slot
    leaves the file, whatever the file held at first. *)
Lemma confirm_patient_second env1 env2 p1 p2 d dt t w w' :
  read_refused env1 = None ->
  on_write env1 = Written ->
  appointments_file w' = appointments_file (snd (confirm_patient env1 p1 d dt t w)) ->
  appointments_file (snd (confirm_patient env2 p2 d dt t w')) = appointments_file w'.
Proof.
  intros Hread Hw Hsame.
  assert (Hlisted : forall items,
            listed w items ->
            appointments_file (snd (confirm_patient env2 p2 d dt t w'))
            = appointments_file w').
  { intros items Hl.
    rewrite (confirm_patient_scanned env1 p1 d dt t w items Hl (or_intror Hread))
      in Hsame.
    destruct (scan items d dt t) as [[ | ] | ex] eqn:Hs.
    - simpl in Hsame. rewrite after_read_file in Hsame.
      destruct Hl as [[_ ->] | Hl]; [ discriminate Hs | ].
      rewrite Hl in Hsame.
      apply (confirm_patient_no_write env2 p2 d dt t w' items Hsame).
      rewrite Hs. discriminate.
    - cbv zeta in Hsame. rewrite Hw in Hsame. simpl in Hsame.
      apply (confirm_patient_no_write env2 p2 d dt t w' _ Hsame).
      rewrite (scan_passed_over items _ d dt t (scan_false_passed_over _ _ _ _ Hs)).
      rewrite scan_own_record. discriminate.
    - simpl in Hsame. rewrite after_read_file in Hsame.
      destruct Hl as [[_ ->] | Hl]; [ discriminate Hs | ].
      rewrite Hl in Hsame.
      apply (confirm_patient_no_write env2 p2 d dt t w' items Hsame).
      rewrite Hs. discriminate. }
  destruct (appointments_file w) as [[why | v] | ] eqn:Hfile.
  - rewrite (confirm_patient_stops_at_read env1 p1 d dt t w _ Hfile I), Hfile
      in Hsame.
    apply (confirm_patient_stops_at_read env2 p2 d dt t w' _ Hsame I).
  - destruct (is_list v) eqn:Hv.
    + destruct v; try discriminate Hv. apply (Hlisted items). right. exact Hfile.
    + rewrite (confirm_patient_stops_at_read env1 p1 d dt t w _ Hfile Hv), Hfile
        in Hsame.
      apply (confirm_patient_stops_at_read env2 p2 d dt t w' _ Hsame Hv).
  - apply (Hlisted []). left. auto.
Qed.

Lemma remotely_booked_same_docs s w w' :
  sanity_docs w' = sanity_docs w -> remotely_booked s w -> remotely_booked s w'.
Proof. unfold remotely_booked. intros ->. auto. Qed.

(** X22.  A booking made a second time changes nothing: when the first
    round of notify, save and confirm had its requests processed and could
    read and write the file, a second round for the same slot, for any
    patient and with the conflict query evaluated, leaves both stores as the
    first round left them. *)
Theorem second_booking_changes_nothing
    how1 senv1 fenv1 p1 e1 how2 senv2 fenv2 p2 e2 d dt t w :
  on_query senv1 = Served ->
  on_mutate senv1 = Served ->
  read_refused fenv1 = None ->
  on_write fenv1 = Written ->
  on_query senv2 = Served ->
  stores (run_calls (booking how1 senv1 fenv1 p1 e1 d dt t
                       ++ booking how2 senv2 fenv2 p2 e2 d dt t) w)
  = stores (run_calls (booking how1 senv1 fenv1 p1 e1 d dt t) w).
Proof.
  intros Hq1 Hm1 Hr1 Hw1 Hq2.
  unfold booking, run_calls. cbn [app fold_left run_call].
  set (wa := snd (send_doctor_request how1 p1 d dt t w)).
  set (wb := snd (save_appointment senv1 p1 e1 d dt t wa)).
  set (wc := snd (confirm_patient fenv1 p1 d dt t wb)).
  set (wd := snd (send_doctor_request how2 p2 d dt t wc)).
  set (we := snd (save_appointment senv2 p2 e2 d dt t wd)).
  assert (Hbooked : remotely_booked (d, dt, t) wd).
  { apply (remotely_booked_same_docs _ wb).
    - unfold wd, wc.
      rewrite send_doctor_request_keeps_docs, confirm_patient_keeps_docs. reflexivity.
    - unfold wb.
      assert (Hans : answer (on_query senv1) (QueryRequest d dt t) wa
                     = Some (fst (serve (QueryRequest d dt t) wa)))
        by (rewrite Hq1; reflexivity).
      rewrite (save_appointment_answered senv1 p1 e1 d dt t wa _ Hans). cbv zeta.
      pose proof (conflict_found_served d dt t wa) as Hc.
      pose proof (find_query_matches (d, dt, t) (sanity_docs wa)) as Hf.
      destruct (find (query_matches (d, dt, t)) (sanity_docs wa)) as [doc | ];
        rewrite Hc.
      + exists doc. exact Hf.
      + rewrite Hm1. apply (remotely_booked_snoc p1 e1 d dt t (sanity_docs wa)).
        reflexivity. }
  unfold stores. f_equal.
  - rewrite confirm_patient_keeps_docs. unfold we.
    rewrite (save_appointment_when_booked senv2 p2 e2 d dt t wd Hq2 Hbooked).
    unfold wd. simpl. apply send_doctor_request_keeps_docs.
  - assert (Hfile : appointments_file we = appointments_file wc).
    { unfold we, wd.
      rewrite save_appointment_keeps_file, send_doctor_request_keeps_file.
      reflexivity. }
    rewrite (confirm_patient_second fenv1 fenv2 p1 p2 d dt t wb we Hr1 Hw1 Hfile).
    exact Hfile.
Qed.

(** ** The tools on concrete inputs *)

Example double_booking_run :
  map doc_slot (sanity_docs (run_calls double_booking empty_world))
  = [("Dr. Khan", "2025-01-01", "11:00 AM"); ("Dr. Khan", "2025-01-01", "11:00 AM")].
Proof. reflexivity. Qed.

Example confirm_patient_missing_key :
  fst (confirm_patient healthy "Sara" "Dr. Ahmed" "2025-01-04" "10:30 AM" damaged_file)
  = Returned "❌ Failed to confirm appointment: 'date'".
Proof. reflexivity. Qed.

Example confirm_patient_other_doctor :
  fst (confirm_patient healthy "Sara" "Dr. Bilal" "2025-01-04" "10:30 AM" damaged_file)
  = Returned "✅ Appointment confirmed for Sara with Dr. Bilal on 2025-01-04 at 10:30 AM.".
Proof. reflexivity. Qed.

Example dr_ahmed_day_groups :
  option_map (fun r => map fst (availability r))
    (option_map snd (find (fun d => fst d =? "Dr. Ahmed") doctors_table))
  = Some ["Monday to Friday"; "Saturday"].
Proof. reflexivity. Qed.

Example send_doctor_request_not_found :
  fst (send_doctor_request
         (Answers {| status_code := 404; body := Unparseable "Expecting value" |})
         "Ali" "Dr. Khan" "2025-01-01" "11:00 AM" empty_world)
  = Returned "❌ Webhook failed (404)".
Proof. reflexivity. Qed.

Example save_appointment_rejected_write :
  save_appointment
    {| on_query := Served;
       on_mutate := Answers {| status_code := 403; body := Unparseable "Forbidden" |} |}
    "Ali" "ali@example.com" "Dr. Khan" "2025-01-01" "11:00 AM" empty_world
  = (Returned SinkWriteFailed,
     log_request (MutateRequest
                    (pending_doc "Ali" "ali@example.com" "Dr. Khan" "2025-01-01" "11:00 AM"))
       (log_request (QueryRequest "Dr. Khan" "2025-01-01" "11:00 AM") empty_world)).
Proof. reflexivity. Qed.

(** ** The theorems at concrete inputs *)

Lemma save_appointment_conflict_checked_witness :
  fst (save_appointment {| on_query := Served; on_mutate := Served |}
         "Sara" "sara@example.com" "Dr. Khan" "2025-01-01" "11:00 AM" one_booked)
  = Returned SlotAlreadyBooked_remote.
Proof.
  refine (proj1 (proj1 (save_appointment_conflict_checked
                          {| on_query := Served; on_mutate := Served |}
                          "Sara" "sara@example.com" "Dr. Khan" "2025-01-01" "11:00 AM"
                          one_booked eq_refl) _)).
  exists (pending_doc "Ali" "ali@example.com" "Dr. Khan" "2025-01-01" "11:00 AM").
  simpl. repeat split. left. reflexivity.
Defined.

Lemma confirm_patient_duplicate_rejected_witness :
  fst (confirm_patient healthy "Sara" "Dr. Khan" "2025-01-01" "11:00 AM" one_booked)
  = Returned SlotAlreadyBooked_local
  /\ appointments_file
       (snd (confirm_patient healthy "Sara" "Dr. Khan" "2025-01-01" "11:00 AM" one_booked))
     = appointments_file one_booked
  /\ fs_log (snd (confirm_patient healthy "Sara" "Dr. Khan" "2025-01-01" "11:00 AM" one_booked))
     = fs_log one_booked ++ [EvExists; EvOpenRead].
Proof.
  apply (confirm_patient_duplicate_rejected healthy "Sara" "Dr. Khan" "2025-01-01"
           "11:00 AM" one_booked
           [record_json "Ali" "Dr. Khan" "2025-01-01" "11:00 AM"]);
    reflexivity.
Defined.

Lemma confirm_patient_appends_in_order_witness :
  stored_items
    (snd (confirm_all healthy
            [mk_booking "Ali" "Dr. Khan" "2025-01-01" "11:00 AM";
             mk_booking "Sara" "Dr. Ahmed" "2025-01-04" "10:30 AM"] empty_world))
  = map booking_json
      [mk_booking "Ali" "Dr. Khan" "2025-01-01" "11:00 AM";
       mk_booking "Sara" "Dr. Ahmed" "2025-01-04" "10:30 AM"].
Proof.
  refine (proj1 (proj2 (confirm_patient_appends_in_order
                          [mk_booking "Ali" "Dr. Khan" "2025-01-01" "11:00 AM";
                           mk_booking "Sara" "Dr. Ahmed" "2025-01-04" "10:30 AM"]
                          empty_world _ _))).
  - left. reflexivity.
  - simpl. constructor.
    + simpl. intros [H | []]. discriminate H.
    + constructor; [ intros [] | constructor ].
Defined.

Lemma sinks_unique_while_queries_honoured_witness :
  local_unique (run_calls
                  [Save {| on_query := Served; on_mutate := Served |}
                        "Ali" "ali@example.com" "Dr. Khan" "2025-01-01" "11:00 AM";
                   Confirm healthy "Ali" "Dr. Khan" "2025-01-01" "11:00 AM";
                   Save {| on_query := Served; on_mutate := Served |}
                        "Sara" "sara@example.com" "Dr. Khan" "2025-01-01" "11:00 AM"]
                  empty_world)
  /\ remote_unique (run_calls
                  [Save {| on_query := Served; on_mutate := Served |}
                        "Ali" "ali@example.com" "Dr. Khan" "2025-01-01" "11:00 AM";
                   Confirm healthy "Ali" "Dr. Khan" "2025-01-01" "11:00 AM";
                   Save {| on_query := Served; on_mutate := Served |}
                        "Sara" "sara@example.com" "Dr. Khan" "2025-01-01" "11:00 AM"]
                  empty_world).
Proof.
  destruct (sinks_unique_while_queries_honoured
              [Save {| on_query := Served; on_mutate := Served |}
                    "Ali" "ali@example.com" "Dr. Khan" "2025-01-01" "11:00 AM";
               Confirm healthy "Ali" "Dr. Khan" "2025-01-01" "11:00 AM";
               Save {| on_query := Served; on_mutate := Served |}
                    "Sara" "sara@example.com" "Dr. Khan" "2025-01-01" "11:00 AM"]
              empty_world eq_refl (or_introl eq_refl)) as [Hl Hr].
  split; [ exact Hl | exact (Hr eq_refl) ].
Defined.

Lemma save_appointment_creates_pending_witness :
  fst (save_appointment {| on_query := Served; on_mutate := Served |}
         "Ali" "ali@example.com" "Dr. Khan" "2025-01-01" "11:00 AM" empty_world)
  = Returned SinkSaved.
Proof.
  refine (proj2 (proj1 (proj2 (save_appointment_creates_pending
                                 {| on_query := Served; on_mutate := Served |}
                                 "Ali" "ali@example.com" "Dr. Khan" "2025-01-01" "11:00 AM"
                                 empty_world _ eq_refl eq_refl) 200%Z eq_refl)) eq_refl).
Defined.

Lemma save_appointment_fails_open_witness :
  ~ remote_unique
      (snd (save_appointment
              {| on_query := Answers {| status_code := 500;
                                        body := Unparseable "Expecting value" |};
                 on_mutate := Served |}
              "Sara" "sara@example.com" "Dr. Khan" "2025-01-01" "11:00 AM" one_booked)).
Proof.
  refine (proj2 (proj2 (proj2 (proj2 (save_appointment_fails_open
                                 {| on_query := Answers {| status_code := 500;
                                                           body := Unparseable "Expecting value" |};
                                    on_mutate := Served |}
                                 "Sara" "sara@example.com" "Dr. Khan" "2025-01-01" "11:00 AM"
                                 one_booked _ eq_refl _))) eq_refl) _).
  - left. simpl. discriminate.
  - simpl. left. reflexivity.
Defined.

(** ** The further properties at concrete inputs *)

Lemma save_appointment_undecodable_answer_witness :
  save_appointment
    {| on_query := Answers {| status_code := 200; body := Unparseable "Expecting value" |};
       on_mutate := Served |}
    "Ali" "ali@example.com" "Dr. Khan" "2025-01-01" "11:00 AM" empty_world
  = (Raised {| exn_cls := JSONDecodeError; exn_str := "Expecting value" |},
     log_request (QueryRequest "Dr. Khan" "2025-01-01" "11:00 AM") empty_world).
Proof.
  exact (proj1 (save_appointment_undecodable_answer
                  {| on_query := Answers {| status_code := 200;
                                            body := Unparseable "Expecting value" |};
                     on_mutate := Served |}
                  "Ali" "ali@example.com" "Dr. Khan" "2025-01-01" "11:00 AM"
                  empty_world _ eq_refl eq_refl)
           "Expecting value" eq_refl).
Defined.

Lemma save_appointment_texts_witness :
  (SinkSaved = SlotAlreadyBooked_remote \/ SinkSaved = SinkSaved
   \/ SinkSaved = SinkWriteFailed)
  /\ (SinkSaved = SinkSaved ->
        reply_status Served = Some 200%Z
        /\ http_log
             (snd (save_appointment {| on_query := Served; on_mutate := Served |}
                     "Ali" "ali@example.com" "Dr. Khan" "2025-01-01" "11:00 AM"
                     empty_world))
           = http_log empty_world
             ++ [QueryRequest "Dr. Khan" "2025-01-01" "11:00 AM";
                 MutateRequest (pending_doc "Ali" "ali@example.com" "Dr. Khan"
                                  "2025-01-01" "11:00 AM")])
  /\ (SinkSaved = SlotAlreadyBooked_remote ->
        sanity_docs
          (snd (save_appointment {| on_query := Served; on_mutate := Served |}
                  "Ali" "ali@example.com" "Dr. Khan" "2025-01-01" "11:00 AM"
                  empty_world))
        = sanity_docs empty_world
        /\ http_log
             (snd (save_appointment {| on_query := Served; on_mutate := Served |}
                     "Ali" "ali@example.com" "Dr. Khan" "2025-01-01" "11:00 AM"
                     empty_world))
           = http_log empty_world ++ [QueryRequest "Dr. Khan" "2025-01-01" "11:00 AM"]).
Proof.
  apply (save_appointment_texts {| on_query := Served; on_mutate := Served |}
           "Ali" "ali@example.com" "Dr. Khan" "2025-01-01" "11:00 AM"
           empty_world SinkSaved).
  reflexivity.
Defined.

Lemma save_appointment_served_books_witness :
  remotely_booked ("Dr. Khan", "2025-01-01", "11:00 AM")
    (snd (save_appointment {| on_query := Served; on_mutate := Served |}
            "Ali" "ali@example.com" "Dr. Khan" "2025-01-01" "11:00 AM" empty_world)).
Proof.
  exact (proj1 (save_appointment_served_books
                  {| on_query := Served; on_mutate := Served |}
                  "Ali" "ali@example.com" "Dr. Khan" "2025-01-01" "11:00 AM"
                  empty_world eq_refl eq_refl)).
Defined.

Lemma remote_booking_is_permanent_witness :
  fst (save_appointment {| on_query := Served; on_mutate := Served |}
         "Sara" "sara@example.com" "Dr. Khan" "2025-01-01" "11:00 AM"
         (run_calls [Confirm healthy "Sara" "Dr. Ahmed" "2025-01-04" "10:30 AM"]
            one_booked))
  = Returned SlotAlreadyBooked_remote.
Proof.
  refine (proj1 (proj2 (remote_booking_is_permanent
                          [Confirm healthy "Sara" "Dr. Ahmed" "2025-01-04" "10:30 AM"]
                          one_booked {| on_query := Served; on_mutate := Served |}
                          "Sara" "sara@example.com" "Dr. Khan" "2025-01-01" "11:00 AM"
                          _ eq_refl))).
  exists (pending_doc "Ali" "ali@example.com" "Dr. Khan" "2025-01-01" "11:00 AM").
  simpl. repeat split. left. reflexivity.
Defined.

Lemma save_appointment_other_slots_witness :
  remotely_booked ("Dr. Ahmed", "2025-01-04", "10:30 AM")
    (snd (save_appointment {| on_query := Served; on_mutate := Served |}
            "Ali" "ali@example.com" "Dr. Khan" "2025-01-01" "11:00 AM" empty_world))
  <-> remotely_booked ("Dr. Ahmed", "2025-01-04", "10:30 AM") empty_world.
Proof.
  apply (save_appointment_other_slots
           {| on_query := Served; on_mutate := Served |}
           "Ali" "ali@example.com" "Dr. Khan" "2025-01-01" "11:00 AM" empty_world
           ("Dr. Ahmed", "2025-01-04", "10:30 AM")).
  discriminate.
Defined.

Lemma confirm_patient_not_a_list_witness :
  exists msg,
    fst (confirm_patient healthy "Ali" "Dr. Khan" "2025-01-01" "11:00 AM" dict_file)
    = Returned (confirm_failure msg)
    /\ appointments_file
         (snd (confirm_patient healthy "Ali" "Dr. Khan" "2025-01-01" "11:00 AM" dict_file))
       = Some (Parses (JObj [("appointments", JList [])]))
    /\ fs_log (snd (confirm_patient healthy "Ali" "Dr. Khan" "2025-01-01" "11:00 AM"
                      dict_file))
       = fs_log dict_file ++ [EvExists; EvOpenRead].
Proof.
  apply (confirm_patient_not_a_list healthy "Ali" "Dr. Khan" "2025-01-01" "11:00 AM"
           dict_file (JObj [("appointments", JList [])])); reflexivity.
Defined.

Lemma unparseable_file_is_permanent_witness :
  appointments_file
    (run_calls [Confirm healthy "Ali" "Dr. Khan" "2025-01-01" "11:00 AM"] broken_file)
  = Some (Unparseable "Expecting value: line 1 column 1 (char 0)").
Proof.
  exact (proj1 (unparseable_file_is_permanent
                  [Confirm healthy "Ali" "Dr. Khan" "2025-01-01" "11:00 AM"]
                  broken_file "Expecting value: line 1 column 1 (char 0)"
                  healthy "Sara" "Dr. Khan" "2025-01-01" "11:00 AM" eq_refl)).
Defined.

Lemma confirm_patient_then_duplicate_witness :
  fst (confirm_patient healthy "Sara" "Dr. Khan" "2025-01-01" "11:00 AM"
         (snd (confirm_patient healthy "Ali" "Dr. Khan" "2025-01-01" "11:00 AM"
                 empty_world)))
  = Returned SlotAlreadyBooked_local.
Proof.
  exact (proj1 (confirm_patient_then_duplicate healthy healthy "Ali" "Sara"
                  "Dr. Khan" "2025-01-01" "11:00 AM" empty_world eq_refl eq_refl)).
Defined.

Lemma local_log_is_append_only_witness :
  exists added,
    stored_items
      (run_calls [Confirm healthy "Sara" "Dr. Ahmed" "2025-01-04" "10:30 AM";
                  Confirm {| read_refused := None; on_write := OpenRefused "denied" |}
                          "Omar" "Dr. Khan" "2025-01-02" "11:00 AM"]
         one_booked)
    = stored_items one_booked ++ added.
Proof.
  apply (local_log_is_append_only
           [Confirm healthy "Sara" "Dr. Ahmed" "2025-01-04" "10:30 AM";
            Confirm {| read_refused := None; on_write := OpenRefused "denied" |}
                    "Omar" "Dr. Khan" "2025-01-02" "11:00 AM"]
           one_booked).
  reflexivity.
Defined.

Lemma confirm_patient_skips_other_doctors_witness :
  fst (confirm_patient healthy "Sara" "Dr. Bilal" "2025-01-04" "10:30 AM" damaged_file)
  = Returned (confirmation (mk_booking "Sara" "Dr. Bilal" "2025-01-04" "10:30 AM")).
Proof.
  exact (proj1 (confirm_patient_skips_other_doctors healthy "Sara" "Dr. Bilal"
                  "2025-01-04" "10:30 AM" damaged_file
                  [record_json "Ali" "Dr. Khan" "2025-01-01" "11:00 AM";
                   JObj [("doctor", JStr "Dr. Ahmed")]]
                  eq_refl eq_refl eq_refl eq_refl)).
Defined.

Lemma confirm_patient_missing_doctor_key_witness :
  fst (confirm_patient healthy "Ali" "Dr. Khan" "2025-01-01" "11:00 AM" ragged_file)
  = Returned (confirm_failure "'doctor'").
Proof.
  exact (proj1 (confirm_patient_missing_doctor_key healthy "Ali" "Dr. Khan"
                  "2025-01-01" "11:00 AM" ragged_file
                  [JObj [("doctor", JStr "Dr. Ahmed")]] (JObj []) []
                  eq_refl eq_refl eq_refl eq_refl)).
Defined.

Lemma second_booking_changes_nothing_witness :
  stores (run_calls
            (booking Served {| on_query := Served; on_mutate := Served |} healthy
               "Ali" "ali@example.com" "Dr. Khan" "2025-01-01" "11:00 AM"
             ++ booking (Unreachable "timed out")
                  {| on_query := Served; on_mutate := Served |} healthy
                  "Sara" "sara@example.com" "Dr. Khan" "2025-01-01" "11:00 AM")
            empty_world)
  = stores (run_calls
              (booking Served {| on_query := Served; on_mutate := Served |} healthy
                 "Ali" "ali@example.com" "Dr. Khan" "2025-01-01" "11:00 AM")
              empty_world).
Proof.
  apply (second_booking_changes_nothing
           Served {| on_query := Served; on_mutate := Served |} healthy
           "Ali" "ali@example.com"
           (Unreachable "timed out") {| on_query := Served; on_mutate := Served |}
           healthy "Sara" "sara@example.com"
           "Dr. Khan" "2025-01-01" "11:00 AM" empty_world); reflexivity.
Defined.
